(** * lagom: the IMPALA-style actor-critic agent and its V-trace targets

    A shallow embedding of [legacy/impala/.../agent.py] (classes [Agent]:
    [__init__], [choose_action], [learn], [checkpoint]) together with the
    V-trace estimator it calls.  Tensor entries are real numbers; Python
    exceptions are an explicit [Raise] result; attribute mutation is explicit
    state passing. *)

From Stdlib Require Import String Ascii DecimalString DecimalZ.
From Stdlib Require Import Reals Lra Lia ZArith Bool List.
Import ListNotations.

Set Implicit Arguments.

(** ** Exceptions and results *)

Inductive exn : Type :=
| ValueError      (* numpy: need at least one array to concatenate *)
| RuntimeError    (* torch: shape errors of cat / split *)
| AttributeError  (* a missing attribute of the module *)
| IndexError      (* indexing an empty list *)
| AssertionError  (* a failed assert *)
| ShapeError.     (* V-trace: mismatched input lengths *)

Inductive result (A : Type) : Type :=
| Ok (a : A)
| Raise (e : exn).

Arguments Ok {A} a.
Arguments Raise {A} e.

(** ** The V-trace estimator *)

Module VTrace.
Local Open Scope R_scope.

(** One time step of a trajectory, as the estimator reads it. *)
Record Step : Type := mkStep {
  mu_logp : R;   (* behaviour-policy log-probability *)
  pi_logp : R;   (* target-policy log-probability *)
  reward  : R;
  value   : R;   (* V[t] *)
  done    : bool
}.

(** [done[t]] read as a number, as in [1 - done[t]]. *)
Definition done_R (d : bool) : R := if d then 1 else 0.

Definition ratio (s : Step) : R := exp (pi_logp s - mu_logp s).

Definition rho (clip_rho : R) (s : Step) : R := Rmin (ratio s) clip_rho.

Definition c (clip_pg_rho : R) (s : Step) : R := Rmin (ratio s) clip_pg_rho.

Definition delta (gamma clip_rho : R) (s : Step) (V_next : R) : R :=
  rho clip_rho s * (reward s + gamma * V_next * (1 - done_R (done s)) - value s).

(** What the backward loop carries from step [t+1] to step [t]. *)
Record Acc : Type := mkAcc {
  V_next       : R;        (* V[t+1], or V_last at the end *)
  vtarget_next : R;        (* vtarget[t+1], or V_last at the end *)
  vtargets     : list R;   (* vtarget[t+1 ..] *)
  advantages   : list R    (* advantage[t+1 ..] *)
}.

Definition backward_step (gamma clip_rho clip_pg_rho : R) (s : Step) (a : Acc) : Acc :=
  let vt := value s + delta gamma clip_rho s (V_next a)
            + gamma * c clip_pg_rho s * (1 - done_R (done s))
              * (vtarget_next a - V_next a) in
  let adv := c clip_pg_rho s
             * (reward s + gamma * (1 - done_R (done s)) * vtarget_next a - value s) in
  {| V_next := value s;
     vtarget_next := vt;
     vtargets := vt :: vtargets a;
     advantages := adv :: advantages a |}.

Definition backward (gamma clip_rho clip_pg_rho : R) (steps : list Step) (V_last : R) : Acc :=
  fold_right (backward_step gamma clip_rho clip_pg_rho)
             {| V_next := V_last; vtarget_next := V_last;
                vtargets := []; advantages := [] |}
             steps.

(** The five per-step inputs read side by side; [None] when their lengths differ. *)
Fixpoint zip_steps (mu pi rs Vs : list R) (ds : list bool) : option (list Step) :=
  match mu, pi, rs, Vs, ds with
  | [], [], [], [], [] => Some []
  | m :: mu', p :: pi', r :: rs', v :: Vs', d :: ds' =>
      match zip_steps mu' pi' rs' Vs' ds' with
      | Some steps => Some (mkStep m p r v d :: steps)
      | None => None
      end
  | _, _, _, _, _ => None
  end.

(** Modelled from the spec: [lagom.metric.vtrace], which [Agent.learn] imports
    and whose source is not part of the files at hand.  Arguments in the order
    of the call in [learn]; the clipped weights, the temporal-difference error
    and the backward recursion follow section 4.1 of the design, and input of
    mismatched lengths fails fast. *)
Definition vtrace (behavior_logprobs target_logprobs : list R) (gamma : R)
    (Rs Vs : list R) (last_V : R) (reach_terminal : list bool)
    (clip_rho clip_pg_rho : R) : result (list R * list R) :=
  match zip_steps behavior_logprobs target_logprobs Rs Vs reach_terminal with
  | None => Raise ShapeError
  | Some steps =>
      let a := backward gamma clip_rho clip_pg_rho steps last_V in
      Ok (vtargets a, advantages a)
  end.

(** The n-step bootstrapped return of a trajectory, in the words of the
    design: [G[t] = r[t] + gamma * (1 - done[t]) * G[t+1]], with [G[T]] the
    bootstrap value. *)
Fixpoint nstep_returns (gamma : R) (rs : list R) (ds : list bool) (V_last : R) : list R :=
  match rs, ds with
  | r :: rs', d :: ds' =>
      let rest := nstep_returns gamma rs' ds' V_last in
      (r + gamma * (1 - done_R d) * hd V_last rest) :: rest
  | _, _ => []
  end.

(** Every entry of [l] past index [t] replaced by [z]. *)
Definition zero_after {A : Type} (z : A) (t : nat) (l : list A) : list A :=
  firstn (S t) l ++ repeat z (length l - S t).

End VTrace.

(** ** Tensor operations of numpy and torch that the agent calls *)

Module Tensor.
Local Open Scope R_scope.

(** A tensor after [squeeze()]: zero-dimensional or one-dimensional. *)
Inductive tensor : Type :=
| Scalar (x : R)
| Vec (l : list R).

(** [t.squeeze()] of a column of [N] rows: every dimension of size one goes,
    so a single row collapses to a zero-dimensional tensor. *)
Definition squeeze (rows : list R) : tensor :=
  match rows with
  | [x] => Scalar x
  | _ => Vec rows
  end.

Fixpoint split_with_sizes (l : list R) (sizes : list nat) : list (list R) :=
  match sizes with
  | [] => []
  | n :: sizes' => firstn n l :: split_with_sizes (skipn n l) sizes'
  end.

(** [t.split(sizes)]: needs a dimension to split, and sizes that add up to it. *)
Definition split (t : tensor) (sizes : list nat) : result (list (list R)) :=
  match t with
  | Scalar _ => Raise RuntimeError
  | Vec l =>
      if Nat.eqb (list_sum sizes) (length l)
      then Ok (split_with_sizes l sizes)
      else Raise RuntimeError
  end.

(** [torch.cat] of a list of one-element tensors: refuses the empty list. *)
Definition torch_cat (xs : list R) : result (list R) :=
  match xs with
  | [] => Raise RuntimeError
  | _ => Ok xs
  end.

(** [np.concatenate] along axis 0: refuses the empty list of arrays. *)
Definition np_concatenate {A : Type} (arrays : list (list A)) : result (list A) :=
  match arrays with
  | [] => Raise ValueError
  | _ => Ok (concat arrays)
  end.

(** An elementwise binary operation on one-dimensional tensors, with torch's
    broadcasting: equal sizes pair up, a single element is stretched, any
    other pair of sizes is an error. *)
Definition elementwise (f : R -> R -> R) (a b : list R) : result (list R) :=
  if Nat.eqb (length a) (length b)
  then Ok (map (fun p => f (fst p) (snd p)) (combine a b))
  else match a, b with
       | [x], _ => Ok (map (f x) b)
       | _, [y] => Ok (map (fun u => f u y) a)
       | _, _ => Raise RuntimeError
       end.

Definition neg (a : list R) : list R := map Ropp a.

Definition scale (k : R) (a : list R) : list R := map (Rmult k) a.

Definition sum (a : list R) : R := fold_right Rplus 0 a.

Definition mean (a : list R) : R := sum a / INR (length a).

(** [t.std()]: torch's default is the unbiased estimator, with [N - 1] in the
    denominator.  For fewer than two entries torch yields nan, which the
    reals do not have; [learn] reaches [std] only with two entries or more. *)
Definition std (a : list R) : R :=
  sqrt (sum (map (fun x => (x - mean a) * (x - mean a)) a) / (INR (length a) - 1)).

(** [F.mse_loss(a, b, reduction='none')]. *)
Definition mse_loss (a b : list R) : result (list R) :=
  elementwise (fun x y => (x - y) * (x - y)) a b.

(** Python's [zip] of five sequences: stops at the shortest. *)
Fixpoint zip5 {A B C D E : Type} (la : list A) (lb : list B) (lc : list C)
    (ld : list D) (le : list E) : list (A * B * C * D * E) :=
  match la, lb, lc, ld, le with
  | a :: la', b :: lb', c :: lc', d :: ld', e :: le' =>
      (a, b, c, d, e) :: zip5 la' lb' lc' ld' le'
  | _, _, _, _, _ => []
  end.

(** The signed 64-bit arithmetic of an int64 tensor. *)
Definition int64_min : Z := (- 2 ^ 63)%Z.
Definition int64_max : Z := (2 ^ 63 - 1)%Z.
Definition wrap64 (z : Z) : Z := ((z + 2 ^ 63) mod 2 ^ 64 - 2 ^ 63)%Z.

End Tensor.

(** ** Environments: spaces and the wrapper stack *)

Module Env.

(** The action and observation spaces of gym. *)
Inductive Space : Type :=
| Discrete (n : nat)
| Box (shape : list nat)
| MultiDiscrete (nvec : list nat)
| MultiBinary (n : nat).

Definition flatdim (s : Space) : nat :=
  match s with
  | Discrete n => n
  | Box shape => fold_right Nat.mul 1%nat shape
  | MultiDiscrete nvec => list_sum nvec
  | MultiBinary n => n
  end.

(** The wrapper classes that [lagom.envs.wrappers] exports.  The observation
    standardizer carries its running mean and variance. *)
Inductive Wrapper : Type :=
| AutoReset
| ClipAction
| ClipReward
| SignClipReward
| FlattenObservation
| FrameStack
| GrayScaleObservation
| ResizeObservation
| RewardScale
| ScaleImageObservation
| TimeAwareObservation
| VecMonitor
| VecStandardizeObservation (mean var : list R)
| VecStandardizeReward
| TimeLimit.

Definition class_name (w : Wrapper) : string :=
  match w with
  | AutoReset => "AutoReset"
  | ClipAction => "ClipAction"
  | ClipReward => "ClipReward"
  | SignClipReward => "SignClipReward"
  | FlattenObservation => "FlattenObservation"
  | FrameStack => "FrameStack"
  | GrayScaleObservation => "GrayScaleObservation"
  | ResizeObservation => "ResizeObservation"
  | RewardScale => "RewardScale"
  | ScaleImageObservation => "ScaleImageObservation"
  | TimeAwareObservation => "TimeAwareObservation"
  | VecMonitor => "VecMonitor"
  | VecStandardizeObservation _ _ => "VecStandardizeObservation"
  | VecStandardizeReward => "VecStandardizeReward"
  | TimeLimit => "TimeLimit"
  end.

(** An environment as the agent holds it: the wrappers around the simulator,
    outermost first, and the spaces it exposes. *)
Record Env : Type := mkEnv {
  wrappers : list Wrapper;
  observation_space : Space;
  action_space : Space
}.

(** Modelled from the spec: [lagom.envs.wrappers.get_wrapper], exported by the
    package but defined in a file that is not at hand.  It looks through the
    environment stack for a wrapper of the class named, and yields [None]
    when there is none. *)
Definition get_wrapper (env : Env) (name : string) : option Wrapper :=
  find (fun w => String.eqb (class_name w) name) (wrappers env).

End Env.

(** ** A state-and-exception monad for the methods of the agent

    A method reads and mutates the attributes of [self]; when it raises, the
    mutations made so far stay. *)

Module Monad.

Definition M (S A : Type) : Type := S -> S * result A.

Definition ret {S A : Type} (a : A) : M S A := fun s => (s, Ok a).

Definition raise {S A : Type} (e : exn) : M S A := fun s => (s, Raise e).

Definition bind {S A B : Type} (m : M S A) (k : A -> M S B) : M S B :=
  fun s =>
    match m s with
    | (s', Ok a) => k a s'
    | (s', Raise e) => (s', Raise e)
    end.

Definition get {S : Type} : M S S := fun s => (s, Ok s).

Definition modify {S : Type} (f : S -> S) : M S unit := fun s => (f s, Ok tt).

(** A computation that touches no attribute. *)
Definition lift {S A : Type} (r : result A) : M S A := fun s => (s, r).

(** [f] on every element in order, stopping at the first exception. *)
Fixpoint mapM {A B : Type} (f : A -> result B) (l : list A) : result (list B) :=
  match l with
  | [] => Ok []
  | x :: l' =>
      match f x with
      | Raise e => Raise e
      | Ok y =>
          match mapM f l' with
          | Raise e => Raise e
          | Ok ys => Ok (y :: ys)
          end
      end
  end.

Module Notations.
Notation "x <- m ;; k" := (bind m (fun x => k))
  (at level 61, m at next level, right associativity).
Notation "m ;;; k" := (bind m (fun _ => k))
  (at level 61, right associativity).
End Notations.

End Monad.

(** ** The agent *)

Module Agent.
Import Monad Monad.Notations Tensor Env.
Local Open Scope R_scope.

(** The collaborators the agent is built on: the feature network, the policy
    and value heads, the distributions, and the optimizer.  Networks map one
    observation row to one output row. *)
Record Externals : Type := mkExternals {
  Obs    : Type;
  Action : Type;
  Feat   : Type;
  Dist   : Type;
  Params : Type;   (* weights of the networks and the state of Adam *)
  Rng    : Type;   (* the state of torch's random generator *)
  feature_network    : Params -> Obs -> Feat;
  categorical_head   : Params -> nat -> nat -> Feat -> Dist;
  diag_gaussian_head : Params -> nat -> nat -> R -> Feat -> Dist;
  V_head             : Params -> Feat -> R;
  dist_entropy       : Dist -> R;
  dist_sample        : Dist -> Rng -> Action * Rng;
  dist_log_prob      : Dist -> Action -> R;
  (* loss.backward(); clip_grad_norm_(parameters, max_norm); optimizer.step():
     the new parameters and the gradient norm *)
  backward_clip_step : Params -> R -> R -> Params * R
}.

Record Config : Type := mkConfig {
  nn_sizes               : list nat;
  agent_std0             : R;
  agent_lr               : R;
  agent_use_lr_scheduler : bool;
  train_timestep         : Z;
  agent_gamma            : R;
  agent_clip_rho         : R;
  agent_clip_pg_rho      : R;
  agent_standardize_adv  : bool;
  agent_value_coef       : R;
  agent_entropy_coef     : R;
  agent_max_grad_norm    : R
}.

(** The two policy heads [__init__] chooses between. *)
Inductive Head : Type :=
| CategoricalHead (feature_dim n : nat)
| DiagGaussianHead (feature_dim dim : nat) (std0 : R).

(** Calls to the optimizer and the scheduler, in the order they are made. *)
Inductive Call : Type :=
| ZeroGrad
| Backward (loss : R)
| ClipGradNorm (max_norm : R)
| OptimizerStep
| SchedulerStep (epoch : Z).

Section WithExternals.
Variable X : Externals.

(** What a checkpoint writes: the state dictionary of the module (the
    parameters and the registered counter), or a pickled pair of moments. *)
Inductive File : Type :=
| StateDict (params : Params X) (total_timestep : Z)
| Pickle (mean var : list R).

(** Modelled from the spec: the trajectory store ([lagom]'s [Trajectory]),
    whose source is not at hand: [T+1] observations, the last of them used
    for bootstrapping only, and [T] actions, rewards, behaviour-policy
    log-probabilities and termination flags. *)
Record Trajectory : Type := mkTrajectory {
  observations     : list (Obs X);   (* the observations actions were taken at *)
  last_observation : Obs X;
  actions          : list (Action X);
  rewards          : list R;
  info_action_logprob : list R;      (* get_all_info('action_logprob') *)
  reach_terminal   : list bool       (* the termination flags, one per step *)
}.

Definition numpy_observations (traj : Trajectory) : list (Obs X) :=
  observations traj ++ [last_observation traj].

Definition len (traj : Trajectory) : nat := length (actions traj).

(** The attributes of the agent, and the part of the world its methods
    touch: the random generator, the calls made to the optimizer and the
    scheduler, and the files written. *)
Record State : Type := mkState {
  config         : Config;
  env            : Env;
  params         : Params X;
  action_head    : option Head;   (* set only for Discrete and Box *)
  total_timestep : Z;             (* the registered int64 buffer *)
  lr_scheduler   : bool;          (* whether the attribute was created *)
  gamma          : R;
  clip_rho       : R;
  clip_pg_rho    : R;
  rng            : Rng X;
  calls          : list Call;
  files          : list (string * File)
}.

Definition set_params (p : Params X) (s : State) : State :=
  mkState (config s) (env s) p (action_head s) (total_timestep s) (lr_scheduler s)
          (gamma s) (clip_rho s) (clip_pg_rho s) (rng s) (calls s) (files s).

Definition set_total_timestep (n : Z) (s : State) : State :=
  mkState (config s) (env s) (params s) (action_head s) n (lr_scheduler s)
          (gamma s) (clip_rho s) (clip_pg_rho s) (rng s) (calls s) (files s).

Definition set_rng (g : Rng X) (s : State) : State :=
  mkState (config s) (env s) (params s) (action_head s) (total_timestep s) (lr_scheduler s)
          (gamma s) (clip_rho s) (clip_pg_rho s) g (calls s) (files s).

Definition add_calls (cs : list Call) (s : State) : State :=
  mkState (config s) (env s) (params s) (action_head s) (total_timestep s) (lr_scheduler s)
          (gamma s) (clip_rho s) (clip_pg_rho s) (rng s) (calls s ++ cs) (files s).

Definition write_file (path : string) (f : File) (s : State) : State :=
  mkState (config s) (env s) (params s) (action_head s) (total_timestep s) (lr_scheduler s)
          (gamma s) (clip_rho s) (clip_pg_rho s) (rng s) (calls s) ((path, f) :: files s).

(** The file at [path], the latest write first. *)
Definition read_file (path : string) (s : State) : option File :=
  match find (fun pf => String.eqb (fst pf) path) (files s) with
  | Some pf => Some (snd pf)
  | None => None
  end.

(** [s'] has every attribute of [s] but, possibly, the random generator. *)
Definition same_but_rng (s s' : State) : Prop :=
  config s' = config s /\ env s' = env s /\ params s' = params s
  /\ action_head s' = action_head s /\ total_timestep s' = total_timestep s
  /\ lr_scheduler s' = lr_scheduler s /\ gamma s' = gamma s
  /\ clip_rho s' = clip_rho s /\ clip_pg_rho s' = clip_pg_rho s
  /\ calls s' = calls s /\ files s' = files s.

(** *** [Agent.__init__] *)

(** The constructor, given the freshly initialized parameters and the
    random generator and files of the process.  The device plays no part. *)
Definition init (cfg : Config) (e : Env) (params0 : Params X) (rng0 : Rng X)
    (files0 : list (string * File)) : result State :=
  match rev (nn_sizes cfg) with
  | [] => Raise IndexError                      (* config['nn.sizes'][-1] *)
  | feature_dim :: _ =>
      let head :=
        match action_space e with
        | Discrete n => Some (CategoricalHead feature_dim n)
        | Box shape => Some (DiagGaussianHead feature_dim (flatdim (Box shape)) (agent_std0 cfg))
        | _ => None
        end in
      Ok {| config := cfg;
            env := e;
            params := params0;
            action_head := head;
            total_timestep := 0%Z;
            lr_scheduler := agent_use_lr_scheduler cfg;
            gamma := agent_gamma cfg;
            clip_rho := agent_clip_rho cfg;
            clip_pg_rho := agent_clip_pg_rho cfg;
            rng := rng0;
            calls := [];
            files := files0 |}
  end.

(** *** [Agent.choose_action] *)

(** The dictionary [choose_action] returns; [raw_action], the numpy copy of
    [action], is not kept. *)
Record ChooseOut : Type := mkChooseOut {
  out_action_dist    : list (Dist X);
  out_entropy        : list R;
  out_action         : list (Action X);
  out_action_logprob : list R;
  out_V              : list R
}.

Definition head_forward (p : Params X) (h : Head) : Feat X -> Dist X :=
  match h with
  | CategoricalHead feature_dim n => categorical_head X p feature_dim n
  | DiagGaussianHead feature_dim dim std0 => diag_gaussian_head X p feature_dim dim std0
  end.

(** [action_dist.sample()], one row after the other. *)
Fixpoint sample_rows (ds : list (Dist X)) (g : Rng X) : list (Action X) * Rng X :=
  match ds with
  | [] => ([], g)
  | d :: ds' =>
      let (a, g') := dist_sample X d g in
      let (rest, g'') := sample_rows ds' g' in
      (a :: rest, g'')
  end.

Definition choose_action (obs : list (Obs X)) : M State ChooseOut :=
  s <- get ;;
  let features := map (feature_network X (params s)) obs in
  match action_head s with
  | None => raise AttributeError               (* self.action_head *)
  | Some h =>
      let action_dist := map (head_forward (params s) h) features in
      let entropy := map (dist_entropy X) action_dist in
      let (action, g) := sample_rows action_dist (rng s) in
      modify (set_rng g) ;;;
      let action_logprob :=
        map (fun da => dist_log_prob X (fst da) (snd da)) (combine action_dist action) in
      let V := map (V_head X (params s)) features in
      ret (mkChooseOut action_dist entropy action action_logprob V)
  end.

(** *** [Agent.learn] *)

(** The part of the report that [learn] computes itself.  The entries that
    collaborators compute from it (the current learning rate, the summary
    of the value predictions, the explained variance) are not kept. *)
Record LearnOut : Type := mkLearnOut {
  out_loss           : R;
  out_grad_norm      : R;
  out_policy_loss    : R;
  out_entropy_loss   : R;
  out_policy_entropy : R;
  out_value_loss     : R
}.

(** [(As - As.mean())/(As.std() + 1e-8)] *)
Definition standardize (As : list R) : list R :=
  map (fun a => (a - mean As) / (std As + 1e-8)) As.

(** The per-timestep loss of lines 117-121, from one-dimensional tensors. *)
Definition loss_terms (cfg : Config) (logprobs entropies Vs vs As : list R)
    : result (list R * list R * list R * list R) :=
  match elementwise Rmult (neg logprobs) As with
  | Raise e => Raise e
  | Ok policy_loss =>
      let entropy_loss := neg entropies in
      match mse_loss Vs vs with
      | Raise e => Raise e
      | Ok value_loss =>
          match elementwise Rplus policy_loss
                            (scale (agent_value_coef cfg) value_loss) with
          | Raise e => Raise e
          | Ok partial =>
              match elementwise Rplus partial
                                (scale (agent_entropy_coef cfg) entropy_loss) with
              | Raise e => Raise e
              | Ok loss => Ok (policy_loss, entropy_loss, value_loss, loss)
              end
          end
      end
  end.

(** The loss in the words of the design, timestep by timestep: the policy
    loss is the negated log-probability weighted by the advantage, the value
    loss the squared error against the value target, the entropy loss the
    negated entropy; the total is their weighted sum. *)
Definition timestep_loss (cfg : Config) (logprob entropy V vtarget advantage : R) : R :=
  let policy_loss := - logprob * advantage in
  let value_loss := (V - vtarget) * (V - vtarget) in
  let entropy_loss := - entropy in
  policy_loss + agent_value_coef cfg * value_loss + agent_entropy_coef cfg * entropy_loss.

Definition mean_timestep_loss (cfg : Config) (logprobs entropies Vs vs As : list R) : R :=
  mean (map (fun i => timestep_loss cfg (nth i logprobs 0) (nth i entropies 0)
                                    (nth i Vs 0) (nth i vs 0) (nth i As 0))
            (seq 0 (length logprobs))).

(** The V-trace loop of lines 101-107 over the zipped per-trajectory data. *)
Definition vtrace_all (s : State)
    (rows : list (Trajectory * list R * list R * list R * R))
    : result (list (list R * list R)) :=
  mapM (fun row =>
          match row with
          | (traj, behavior_logprob, logprob, V, last_V) =>
              VTrace.vtrace behavior_logprob logprob (gamma s) (rewards traj) V last_V
                            (reach_terminal traj) (clip_rho s) (clip_pg_rho s)
          end)
       rows.

(** The one-dimensional tensors the loss is computed from. *)
Record Metrics : Type := mkMetrics {
  m_logprobs  : list R;
  m_entropies : list R;
  m_Vs        : list R;
  m_vs        : list R;   (* value targets *)
  m_As        : list R    (* advantages *)
}.

(** Lines 90-114: the forward passes, the V-trace targets of every
    trajectory, the optional standardization and the shape assertion. *)
Definition learn_metrics (D : list Trajectory) : M State Metrics :=
  let Ts := map len D in
  behavior_logprobs <- lift (mapM (fun traj => torch_cat (info_action_logprob traj)) D) ;;
  obs <- lift (np_concatenate (map (fun traj => removelast (numpy_observations traj)) D)) ;;
  out_agent <- choose_action obs ;;
  let logprobs := squeeze (out_action_logprob out_agent) in
  let entropies := squeeze (out_entropy out_agent) in
  let Vs := squeeze (out_V out_agent) in
  last_observations <- lift (np_concatenate (map (fun traj => [last_observation traj]) D)) ;;
  s <- get ;;
  let last_Vs :=
    map (fun o => V_head X (params s) (feature_network X (params s) o)) last_observations in
  logprob_parts <- lift (split logprobs Ts) ;;
  V_parts <- lift (split Vs Ts) ;;
  vAs <- lift (vtrace_all s (zip5 D behavior_logprobs logprob_parts V_parts last_Vs)) ;;
  vs <- lift (np_concatenate (map fst vAs)) ;;
  As <- lift (np_concatenate (map snd vAs)) ;;
  let As := if agent_standardize_adv (config s) then standardize As else As in
  match logprobs, entropies, Vs with
  | Vec logprobs, Vec entropies, Vec Vs => ret (mkMetrics logprobs entropies Vs vs As)
  | _, _, _ => raise AssertionError            (* ndimension() == 1 *)
  end.

(** Lines 116-143: the loss, the optimizer step, the scheduler step, the
    timestep counter and the report. *)
Definition learn_update (D : list Trajectory) (m : Metrics) : M State LearnOut :=
  s <- get ;;
  terms <- lift (loss_terms (config s) (m_logprobs m) (m_entropies m) (m_Vs m)
                            (m_vs m) (m_As m)) ;;
  match terms with
  | (policy_loss, entropy_loss, value_loss, loss_t) =>
      let loss := mean loss_t in
      let max_norm := agent_max_grad_norm (config s) in
      let (params', grad_norm) := backward_clip_step X (params s) loss max_norm in
      modify (add_calls [ZeroGrad; Backward loss; ClipGradNorm max_norm; OptimizerStep]) ;;;
      modify (set_params params') ;;;
      (if agent_use_lr_scheduler (config s)
       then (self <- get ;;
             if lr_scheduler self
             then modify (add_calls [SchedulerStep (total_timestep self)])
             else raise AttributeError)          (* self.lr_scheduler *)
       else ret tt) ;;;
      modify (fun s' => set_total_timestep
                (wrap64 (total_timestep s' + Z.of_nat (list_sum (map len D)))) s') ;;;
      ret {| out_loss := loss;
             out_grad_norm := grad_norm;
             out_policy_loss := mean policy_loss;
             out_entropy_loss := mean entropy_loss;
             out_policy_entropy := - mean entropy_loss;
             out_value_loss := mean value_loss |}
  end.

Definition learn (D : list Trajectory) : M State LearnOut :=
  m <- learn_metrics D ;;
  learn_update D m.

(** *** Batches that [learn] accepts *)

(** A trajectory as the data model has it: [T >= 1] steps, and as many
    observations acted on, rewards, behaviour log-probabilities and
    termination flags as actions. *)
Definition well_formed_trajectory (traj : Trajectory) : bool :=
  Nat.leb 1 (len traj)
  && Nat.eqb (length (observations traj)) (len traj)
  && Nat.eqb (length (rewards traj)) (len traj)
  && Nat.eqb (length (info_action_logprob traj)) (len traj)
  && Nat.eqb (length (reach_terminal traj)) (len traj).

(** A batch of such trajectories with two timesteps or more in all. *)
Definition well_formed_batch (D : list Trajectory) : bool :=
  Nat.leb 2 (list_sum (map len D)) && forallb well_formed_trajectory D.

(** An agent as [__init__] leaves it on a [Discrete] or [Box] action space:
    the head is there, and so is the scheduler when the configuration asks
    for one. *)
Definition ready (s : State) : bool :=
  match action_head s with Some _ => true | None => false end
  && implb (agent_use_lr_scheduler (config s)) (lr_scheduler s).

(** *** [Agent.checkpoint] *)

(** The decimal text of [n], as an f-string prints it. *)
Definition format_int (n : Z) : string := NilZero.string_of_int (Z.to_int n).

Definition joinpath (logdir name : string) : string :=
  (logdir ++ "/" ++ name)%string.

Definition agent_file (logdir : string) (num_iter : Z) : string :=
  joinpath logdir ("agent_" ++ format_int num_iter ++ ".pth")%string.

(** Modelled from the spec: [BaseAgent.save] and [lagom.utils.pickle_dump],
    whose sources are not at hand.  [save(f)] serializes the parameters of
    the model to the file [f]; [pickle_dump(obj, f, ext)] persists [obj] in
    the file [f] with the extension [ext] appended. *)
Definition moments_file (logdir : string) (num_iter : Z) : string :=
  (joinpath logdir ("obs_moments_" ++ format_int num_iter) ++ ".pth")%string.

Definition checkpoint (logdir : string) (num_iter : Z) : M State unit :=
  s <- get ;;
  modify (write_file (agent_file logdir num_iter)
                     (StateDict (params s) (total_timestep s))) ;;;
  match get_wrapper (env s) "VecStandardizeObservation" with
  | None => ret tt
  | Some obs_env =>
      match obs_env with
      | VecStandardizeObservation mean var =>
          modify (write_file (moments_file logdir num_iter) (Pickle mean var))
      | _ => raise AttributeError              (* obs_env.mean *)
      end
  end.

(** *** Sequences of operations *)

Inductive Op : Type :=
| ChooseAction (obs : list (Obs X))
| Learn (D : list Trajectory)
| Checkpoint (logdir : string) (num_iter : Z).

(** One call; an exception leaves the agent as it was when raised. *)
Definition run_op (o : Op) (s : State) : State :=
  match o with
  | ChooseAction obs => fst (choose_action obs s)
  | Learn D => fst (learn D s)
  | Checkpoint logdir num_iter => fst (checkpoint logdir num_iter s)
  end.

Definition run (ops : list Op) (s : State) : State :=
  fold_left (fun st o => run_op o st) ops s.

(** The timesteps in the batches of the [Learn] calls among [ops]. *)
Definition batch_timesteps (D : list Trajectory) : Z :=
  Z.of_nat (list_sum (map len D)).

Fixpoint timesteps_of (ops : list Op) : Z :=
  match ops with
  | [] => 0
  | Learn D :: ops' => batch_timesteps D + timesteps_of ops'
  | _ :: ops' => timesteps_of ops'
  end%Z.

End WithExternals.
End Agent.

(** ** A small instance: collaborators, configuration and a batch *)

Module Toy.
Import Env Agent.
Local Open Scope R_scope.

(** Collaborators with one parameter, a constant policy and a constant
    value estimate. *)
Definition X : Externals :=
  {| Obs := nat; Action := bool; Feat := nat; Dist := unit; Params := nat; Rng := nat;
     feature_network := fun _ o => o;
     categorical_head := fun _ _ _ _ => tt;
     diag_gaussian_head := fun _ _ _ _ _ => tt;
     V_head := fun _ _ => 0.5;
     dist_entropy := fun _ => 0;
     dist_sample := fun _ g => (true, S g);
     dist_log_prob := fun _ _ => 0;
     backward_clip_step := fun p _ _ => (S p, 0) |}.

Definition cfg : Config :=
  {| nn_sizes := [64; 64]%nat;
     agent_std0 := 0.6;
     agent_lr := 0.001;
     agent_use_lr_scheduler := true;
     train_timestep := 1000000;
     agent_gamma := 0.99;
     agent_clip_rho := 1;
     agent_clip_pg_rho := 1;
     agent_standardize_adv := true;
     agent_value_coef := 0.5;
     agent_entropy_coef := 0.01;
     agent_max_grad_norm := 0.5 |}.

(** CartPole under the observation standardizer. *)
Definition cartpole : Env :=
  {| wrappers := [VecMonitor; VecStandardizeObservation [0; 0; 0; 0] [1; 1; 1; 1]];
     observation_space := Box [4%nat];
     action_space := Discrete 2 |}.

(** An environment whose action space has no head. *)
Definition multi_binary_env : Env :=
  {| wrappers := [];
     observation_space := Box [4%nat];
     action_space := MultiBinary 3 |}.

(** The attributes [__init__] sets on [cartpole]. *)
Definition agent0 : State X :=
  @mkState X cfg cartpole 0%nat (Some (CategoricalHead 64 2)) 0%Z true
           0.99 1 1 0%nat [] [].

(** A two-step episode that ends at its second step. *)
Definition episode : Trajectory X :=
  @mkTrajectory X [1; 2]%nat 3%nat [true; false] [1; 1] [0; 0] [false; true].

Definition batch : list (Trajectory X) := [episode; episode].

End Toy.

Unset Implicit Arguments.

(** * Properties of the V-trace estimator *)

Module VTraceFacts.
Import VTrace.
Local Open Scope R_scope.

Lemma zip_steps_length mu pi rs Vs ds steps :
  zip_steps mu pi rs Vs ds = Some steps ->
  length mu = length steps /\ length pi = length steps /\ length rs = length steps
  /\ length Vs = length steps /\ length ds = length steps.
Proof.
  revert pi rs Vs ds steps.
  induction mu as [|m mu IH]; intros [|p pi] [|r rs] [|v Vs] [|d ds] steps H;
    simpl in H; try discriminate.
  - inversion H; subst; simpl; auto.
  - destruct (zip_steps mu pi rs Vs ds) as [st|] eqn:E; [|discriminate].
    inversion H; subst; clear H.
    destruct (IH _ _ _ _ _ E) as (H1 & H2 & H3 & H4 & H5).
    simpl; repeat split; congruence.
Qed.

Lemma zip_steps_total mu pi rs Vs ds :
  length pi = length mu -> length rs = length mu -> length Vs = length mu ->
  length ds = length mu ->
  exists steps, zip_steps mu pi rs Vs ds = Some steps.
Proof.
  revert pi rs Vs ds.
  induction mu as [|m mu IH]; intros [|p pi] [|r rs] [|v Vs] [|d ds];
    simpl; intros H1 H2 H3 H4; try discriminate.
  - eexists; reflexivity.
  - destruct (IH pi rs Vs ds) as [st E]; try congruence.
    rewrite E. eexists; reflexivity.
Qed.

Lemma zip_steps_fields mu pi rs Vs ds steps :
  zip_steps mu pi rs Vs ds = Some steps ->
  map mu_logp steps = mu /\ map pi_logp steps = pi /\ map reward steps = rs
  /\ map value steps = Vs /\ map done steps = ds.
Proof.
  revert pi rs Vs ds steps.
  induction mu as [|m mu IH]; intros [|p pi] [|r rs] [|v Vs] [|d ds] steps H;
    simpl in H; try discriminate.
  - inversion H; subst; simpl; auto.
  - destruct (zip_steps mu pi rs Vs ds) as [st|] eqn:E; [|discriminate].
    inversion H; subst; clear H.
    destruct (IH _ _ _ _ _ E) as (H1 & H2 & H3 & H4 & H5).
    simpl; repeat split; congruence.
Qed.

Lemma backward_cons gamma cr cp s steps V_last :
  backward gamma cr cp (s :: steps) V_last
  = backward_step gamma cr cp s (backward gamma cr cp steps V_last).
Proof. reflexivity. Qed.

Lemma backward_lengths gamma cr cp steps V_last :
  length (vtargets (backward gamma cr cp steps V_last)) = length steps
  /\ length (advantages (backward gamma cr cp steps V_last)) = length steps.
Proof.
  induction steps as [|s steps [IHv IHa]]; [split; reflexivity|].
  rewrite backward_cons; simpl; split; congruence.
Qed.

(** The loop carries the head of what it has built. *)
Lemma backward_next gamma cr cp steps V_last :
  vtarget_next (backward gamma cr cp steps V_last)
  = hd V_last (vtargets (backward gamma cr cp steps V_last))
  /\ V_next (backward gamma cr cp steps V_last) = hd V_last (map value steps).
Proof.
  destruct steps as [|s steps]; split; reflexivity.
Qed.

(** C1: the concrete two-step scenario of the design: on-policy, unit clip
    thresholds, rewards [1, 1], values [0.5, 0.5], bootstrap value 0, the
    second step terminal.  The value targets are exactly 1.99 and 1.0. *)
Theorem vtrace_concrete_scenario :
  exists adv,
    vtrace [0; 0] [0; 0] 0.99 [1; 1] [0.5; 0.5] 0 [false; true] 1 1
    = Ok ([1.99; 1], adv).
Proof.
  eexists. unfold vtrace; simpl.
  unfold delta, rho, c, ratio; simpl.
  replace (0 - 0) with 0 by ring.
  rewrite exp_0.
  replace (Rmin 1 1) with 1 by (symmetry; apply Rmin_left; lra).
  f_equal. f_equal. f_equal; [|f_equal]; lra.
Qed.

(** On-policy steps under clip thresholds of at least one: every importance
    ratio and both clipped weights are one. *)
Lemma on_policy_weights clip_rho clip_pg_rho (s : Step) :
  pi_logp s = mu_logp s -> 1 <= clip_rho -> 1 <= clip_pg_rho ->
  ratio s = 1 /\ rho clip_rho s = 1 /\ c clip_pg_rho s = 1.
Proof.
  intros E Hr Hc. unfold rho, c, ratio. rewrite E.
  replace (mu_logp s - mu_logp s) with 0 by ring. rewrite exp_0.
  repeat split; apply Rmin_left; assumption.
Qed.

Lemma backward_unit_weights gamma cr cp steps V_last :
  Forall (fun s => rho cr s = 1 /\ c cp s = 1) steps ->
  vtargets (backward gamma cr cp steps V_last)
  = nstep_returns gamma (map reward steps) (map done steps) V_last.
Proof.
  induction 1 as [|s steps [Hr Hc] _ IH]; [reflexivity|].
  rewrite backward_cons.
  destruct (backward_next gamma cr cp steps V_last) as [Hn _].
  simpl. rewrite <- IH, <- Hn. f_equal.
  unfold delta. rewrite Hr, Hc. ring.
Qed.

(** C2: when the behaviour and target log-probabilities coincide at every
    step and both clip thresholds are at least one, every importance ratio
    and every clipped weight is one, and the value targets of [vtrace] are the
    n-step bootstrapped returns of the trajectory. *)
Theorem vtrace_on_policy_is_nstep_return
    (mu pi : list R) (gamma : R) (Rs Vs : list R) (last_V : R)
    (dones : list bool) (clip_rho clip_pg_rho : R) :
  pi = mu ->
  length Rs = length mu -> length Vs = length mu -> length dones = length mu ->
  1 <= clip_rho -> 1 <= clip_pg_rho ->
  exists steps adv,
    zip_steps mu pi Rs Vs dones = Some steps
    /\ Forall (fun s => ratio s = 1 /\ rho clip_rho s = 1 /\ c clip_pg_rho s = 1) steps
    /\ vtrace mu pi gamma Rs Vs last_V dones clip_rho clip_pg_rho
       = Ok (nstep_returns gamma Rs dones last_V, adv).
Proof.
  intros -> HR HV HD Hr Hc.
  destruct (zip_steps_total mu mu Rs Vs dones) as [steps E]; auto.
  destruct (zip_steps_fields _ _ _ _ _ _ E) as (Fm & Fp & Fr & Fv & Fd).
  assert (W : Forall (fun s => ratio s = 1 /\ rho clip_rho s = 1 /\ c clip_pg_rho s = 1) steps).
  { apply Forall_forall. intros s Hs.
    apply on_policy_weights; auto.
    assert (P : forall l, map pi_logp l = map mu_logp l -> In s l -> pi_logp s = mu_logp s).
    { induction l as [|a l IH]; simpl; intros Hm Hin; [contradiction|].
      destruct Hin as [->|Hin]; inversion Hm; auto. }
    apply (P steps); congruence. }
  exists steps, (advantages (backward gamma clip_rho clip_pg_rho steps last_V)).
  split; [exact E|]. split; [exact W|].
  unfold vtrace. rewrite E. rewrite backward_unit_weights.
  - rewrite Fr, Fd. reflexivity.
  - eapply Forall_impl; [|exact W]. intros s (_ & H1 & H2); auto.
Qed.

(** The value targets are those of the scenario of the design when it is run
    on-policy: the instance of the theorem at that input. *)
Lemma vtrace_on_policy_is_nstep_return_witness :
  exists steps adv,
    zip_steps [0; 0] [0; 0] [1; 1] [0.5; 0.5] [false; true] = Some steps
    /\ Forall (fun s => ratio s = 1 /\ rho 1 s = 1 /\ c 1 s = 1) steps
    /\ vtrace [0; 0] [0; 0] 0.99 [1; 1] [0.5; 0.5] 0 [false; true] 1 1
       = Ok (nstep_returns 0.99 [1; 1] [false; true] 0, adv).
Proof.
  apply (vtrace_on_policy_is_nstep_return [0; 0] [0; 0] 0.99 [1; 1] [0.5; 0.5] 0
           [false; true] 1 1);
    try reflexivity; lra.
Defined.

Lemma hd_nth0 {A : Type} (d : A) (l : list A) : hd d l = nth 0 l d.
Proof. destruct l; reflexivity. Qed.

Lemma zip_steps_nth mu pi rs Vs ds steps t :
  zip_steps mu pi rs Vs ds = Some steps ->
  (t < length steps)%nat ->
  nth_error steps t
  = Some (mkStep (nth t mu 0) (nth t pi 0) (nth t rs 0) (nth t Vs 0) (nth t ds false)).
Proof.
  revert pi rs Vs ds steps t.
  induction mu as [|m mu IH]; intros [|p pi] [|r rs] [|v Vs] [|d ds] steps t H Ht;
    simpl in H; try discriminate.
  - inversion H; subst; simpl in Ht; lia.
  - destruct (zip_steps mu pi rs Vs ds) as [st|] eqn:E; [|discriminate].
    inversion H; subst; clear H.
    destruct t as [|t]; [reflexivity|].
    simpl in Ht |- *. apply IH; [exact E | lia].
Qed.

(** The fold computes the indexed recurrences of the design: at step [t] the
    value target and the advantage are built from the inputs of step [t],
    the next value [V[t+1]] and the next value target [vtarget[t+1]], both
    read as the bootstrap value past the end. *)
Lemma backward_recurrence gamma cr cp steps V_last t s :
  nth_error steps t = Some s ->
  let a := backward gamma cr cp steps V_last in
  let Vn := nth (S t) (map value steps) V_last in
  let vn := nth (S t) (vtargets a) V_last in
  nth_error (vtargets a) t
  = Some (value s + delta gamma cr s Vn
          + gamma * c cp s * (1 - done_R (done s)) * (vn - Vn))
  /\ nth_error (advantages a) t
     = Some (c cp s * (reward s + gamma * (1 - done_R (done s)) * vn - value s)).
Proof.
  revert t. induction steps as [|s0 steps IH]; intros [|t] Hs; simpl in Hs; try discriminate.
  - inversion Hs; subst; clear Hs.
    destruct (backward_next gamma cr cp steps V_last) as [Hn HV].
    cbv zeta. rewrite backward_cons. simpl.
    rewrite <- !hd_nth0, <- Hn, <- HV. split; reflexivity.
  - cbv zeta. rewrite backward_cons. simpl. apply (IH t Hs).
Qed.

(** C4: on a well-formed trajectory of length [T], [vtrace] returns, and the
    value targets and the advantages both have length [T]; position [t] of
    each is the quantity of step [t] of the trajectory. *)
Theorem vtrace_output_lengths
    (mu pi : list R) (gamma : R) (Rs Vs : list R) (last_V : R)
    (dones : list bool) (clip_rho clip_pg_rho : R) (T : nat) :
  length mu = T -> length pi = T -> length Rs = T -> length Vs = T ->
  length dones = T ->
  exists vt adv,
    vtrace mu pi gamma Rs Vs last_V dones clip_rho clip_pg_rho = Ok (vt, adv)
    /\ length vt = T /\ length adv = T
    /\ forall t, (t < T)%nat ->
         let s := mkStep (nth t mu 0) (nth t pi 0) (nth t Rs 0) (nth t Vs 0)
                         (nth t dones false) in
         let Vn := nth (S t) Vs last_V in
         let vn := nth (S t) vt last_V in
         nth_error vt t
         = Some (value s + delta gamma clip_rho s Vn
                 + gamma * c clip_pg_rho s * (1 - done_R (done s)) * (vn - Vn))
         /\ nth_error adv t
            = Some (c clip_pg_rho s
                    * (reward s + gamma * (1 - done_R (done s)) * vn - value s)).
Proof.
  intros Hm Hp Hr Hv Hd.
  destruct (zip_steps_total mu pi Rs Vs dones) as [steps E]; try congruence.
  destruct (zip_steps_length _ _ _ _ _ _ E) as (L & _).
  destruct (zip_steps_fields _ _ _ _ _ _ E) as (_ & _ & _ & Fv & _).
  destruct (backward_lengths gamma clip_rho clip_pg_rho steps last_V) as [Lv La].
  exists (vtargets (backward gamma clip_rho clip_pg_rho steps last_V)),
         (advantages (backward gamma clip_rho clip_pg_rho steps last_V)).
  unfold vtrace. rewrite E.
  split; [reflexivity|]. split; [congruence|]. split; [congruence|].
  intros t Ht.
  assert (Hs := zip_steps_nth _ _ _ _ _ _ t E ltac:(lia)).
  pose proof (backward_recurrence gamma clip_rho clip_pg_rho steps last_V t _ Hs) as B.
  cbv zeta in B |- *. rewrite Fv in B. exact B.
Qed.

Lemma vtrace_output_lengths_witness :
  exists vt adv,
    vtrace [0; 0] [0; 0] 0.99 [1; 1] [0.5; 0.5] 0 [false; true] 1 1 = Ok (vt, adv)
    /\ length vt = 2%nat /\ length adv = 2%nat.
Proof.
  destruct (vtrace_output_lengths [0; 0] [0; 0] 0.99 [1; 1] [0.5; 0.5] 0
              [false; true] 1 1 2 eq_refl eq_refl eq_refl eq_refl eq_refl)
    as (vt & adv & H & Lv & La & _).
  exists vt, adv. auto.
Defined.

(** A terminal step cuts the recursion: what the loop has built from the
    steps after it does not enter its value target. *)
Lemma backward_step_done gamma cr cp s a a' :
  done s = true ->
  vtarget_next (backward_step gamma cr cp s a)
  = vtarget_next (backward_step gamma cr cp s a')
  /\ vtarget_next (backward_step gamma cr cp s a)
     = value s + rho cr s * (reward s - value s).
Proof.
  intros Hd. unfold backward_step, delta; simpl. rewrite Hd; simpl. split; ring.
Qed.

(** Two trajectories that agree up to a terminal step [t] have the same
    value targets up to [t], whatever comes after. *)
Lemma backward_prefix gamma cr cp t :
  forall steps steps' V_last V_last' s,
    firstn (S t) steps = firstn (S t) steps' ->
    nth_error steps t = Some s -> done s = true ->
    let a := backward gamma cr cp steps V_last in
    let a' := backward gamma cr cp steps' V_last' in
    V_next a = V_next a' /\ vtarget_next a = vtarget_next a'
    /\ firstn (S t) (vtargets a) = firstn (S t) (vtargets a').
Proof.
  induction t as [|t IH]; intros steps steps' VL VL' s Hf Hn Hd;
    destruct steps as [|s0 steps]; simpl in Hn; try discriminate;
    destruct steps' as [|s0' steps']; try discriminate;
    rewrite !firstn_cons in Hf; cbv zeta; rewrite !backward_cons.
  - assert (H0 : s0 = s0') by congruence. subst s0'.
    inversion Hn; subst s0.
    destruct (backward_step_done gamma cr cp s
                (backward gamma cr cp steps VL) (backward gamma cr cp steps' VL') Hd)
      as [Heq _].
    split; [reflexivity|]. split; [exact Heq|].
    simpl in Heq |- *. f_equal. exact Heq.
  - assert (H0 : s0 = s0') by congruence. subst s0'.
    assert (Hrest : firstn (S t) steps = firstn (S t) steps') by congruence.
    destruct (IH steps steps' VL VL' s Hrest Hn Hd) as (HV & Hv & Hp).
    cbv zeta in HV, Hv, Hp.
    assert (Hvt : vtarget_next (backward_step gamma cr cp s0 (backward gamma cr cp steps VL))
                  = vtarget_next (backward_step gamma cr cp s0 (backward gamma cr cp steps' VL'))).
    { unfold backward_step, delta; simpl. rewrite HV, Hv. reflexivity. }
    split; [reflexivity|]. split; [exact Hvt|].
    change (vtargets (backward_step gamma cr cp s0 (backward gamma cr cp steps VL)))
      with (vtarget_next (backward_step gamma cr cp s0 (backward gamma cr cp steps VL))
            :: vtargets (backward gamma cr cp steps VL)).
    change (vtargets (backward_step gamma cr cp s0 (backward gamma cr cp steps' VL')))
      with (vtarget_next (backward_step gamma cr cp s0 (backward gamma cr cp steps' VL'))
            :: vtargets (backward gamma cr cp steps' VL')).
    rewrite !firstn_cons. rewrite Hvt. f_equal. exact Hp.
Qed.

Lemma zero_after_nil {A : Type} (z : A) t : zero_after z t [] = [].
Proof. reflexivity. Qed.

Lemma zero_after_cons {A : Type} (z : A) t x (l : list A) :
  zero_after z (S t) (x :: l) = x :: zero_after z t l.
Proof. reflexivity. Qed.

Lemma zero_after_length {A : Type} (z : A) t (l : list A) :
  length (zero_after z t l) = length l.
Proof.
  unfold zero_after. rewrite length_app, repeat_length, length_firstn. lia.
Qed.

Lemma zero_after_firstn {A : Type} (z : A) t (l : list A) :
  firstn (S t) (zero_after z t l) = firstn (S t) l.
Proof.
  unfold zero_after.
  rewrite firstn_app, firstn_firstn, Nat.min_id, length_firstn.
  destruct (Nat.le_gt_cases (length l) (S t)) as [H|H].
  - replace (length l - S t)%nat with 0%nat by lia. simpl repeat.
    rewrite firstn_nil. apply app_nil_r.
  - replace (S t - Nat.min (S t) (length l))%nat with 0%nat by lia.
    rewrite firstn_O. apply app_nil_r.
Qed.

Lemma nth_error_firstn_lt {A : Type} (n i : nat) (l : list A) :
  (i < n)%nat -> nth_error (firstn n l) i = nth_error l i.
Proof.
  intros H. rewrite nth_error_firstn.
  destruct (Nat.ltb_spec i n); [reflexivity | lia].
Qed.

Lemma zip_steps_firstn n :
  forall mu pi rs Vs ds steps,
    zip_steps mu pi rs Vs ds = Some steps ->
    zip_steps (firstn n mu) (firstn n pi) (firstn n rs) (firstn n Vs) (firstn n ds)
    = Some (firstn n steps).
Proof.
  induction n as [|n IH]; intros mu pi rs Vs ds steps H; [reflexivity|].
  destruct mu as [|m mu], pi as [|p pi], rs as [|r rs], Vs as [|v Vs], ds as [|d ds];
    simpl in H; try discriminate.
  - inversion H; reflexivity.
  - destruct (zip_steps mu pi rs Vs ds) as [st|] eqn:E; [|discriminate].
    inversion H; subst; clear H.
    simpl. rewrite (IH _ _ _ _ _ _ E). reflexivity.
Qed.

(** C3: at a terminal step [t] the value target is
    [V[t] + rho[t] * (r[t] - V[t])], free of the next value and of the next
    value target; and replacing the rewards, values, log-probabilities after
    [t] and the bootstrap value by zero leaves the value targets up to [t]
    as they were. *)
Theorem vtrace_terminal_boundary
    (mu pi : list R) (gamma : R) (Rs Vs : list R) (last_V : R)
    (dones : list bool) (clip_rho clip_pg_rho : R) (vt adv : list R) (t : nat) :
  vtrace mu pi gamma Rs Vs last_V dones clip_rho clip_pg_rho = Ok (vt, adv) ->
  nth_error dones t = Some true ->
  nth_error vt t
  = Some (nth t Vs 0
          + rho clip_rho (mkStep (nth t mu 0) (nth t pi 0) (nth t Rs 0) (nth t Vs 0) true)
            * (nth t Rs 0 - nth t Vs 0))
  /\ exists vt' adv',
       vtrace (zero_after 0 t mu) (zero_after 0 t pi) gamma
              (zero_after 0 t Rs) (zero_after 0 t Vs) 0 dones clip_rho clip_pg_rho
       = Ok (vt', adv')
       /\ firstn (S t) vt' = firstn (S t) vt.
Proof.
  unfold vtrace. intros H Hd.
  destruct (zip_steps mu pi Rs Vs dones) as [steps|] eqn:E; [|discriminate].
  inversion H; subst vt adv; clear H.
  destruct (zip_steps_length _ _ _ _ _ _ E) as (Lm & Lp & Lr & Lv & Ld).
  assert (Ht : (t < length steps)%nat).
  { rewrite <- Ld. apply nth_error_Some. congruence. }
  pose proof (zip_steps_nth _ _ _ _ _ _ t E Ht) as Hs.
  assert (Dt : nth t dones false = true).
  { apply nth_error_nth. exact Hd. }
  rewrite Dt in Hs.
  set (s := mkStep (nth t mu 0) (nth t pi 0) (nth t Rs 0) (nth t Vs 0) true) in *.
  split.
  - destruct (backward_recurrence gamma clip_rho clip_pg_rho steps last_V t s Hs) as [B _].
    cbv zeta in B. rewrite B. f_equal. unfold delta; simpl. ring.
  - destruct (zip_steps_total (zero_after 0 t mu) (zero_after 0 t pi)
                (zero_after 0 t Rs) (zero_after 0 t Vs) dones) as [steps' E'];
      rewrite ?zero_after_length; try congruence.
    rewrite E'.
    do 2 eexists. split; [reflexivity|]. simpl.
    assert (Hf : firstn (S t) steps' = firstn (S t) steps).
    { pose proof (zip_steps_firstn (S t) _ _ _ _ _ _ E') as F'.
      pose proof (zip_steps_firstn (S t) _ _ _ _ _ _ E) as F.
      rewrite !zero_after_firstn in F'. congruence. }
    assert (Hs' : nth_error steps' t = Some s).
    { rewrite <- (nth_error_firstn_lt (S t) t steps') by lia. rewrite Hf.
      rewrite nth_error_firstn_lt by lia. exact Hs. }
    destruct (backward_prefix gamma clip_rho clip_pg_rho t steps' steps 0 last_V s
                Hf Hs' eq_refl) as (_ & _ & P).
    exact P.
Qed.

Lemma vtrace_terminal_boundary_witness :
  exists vt' adv',
    vtrace (zero_after 0 0 [0; 0]) (zero_after 0 0 [0; 0]) 0.99
           (zero_after 0 0 [1; 2]) (zero_after 0 0 [0.5; 0.7]) 0 [true; false] 1 1
    = Ok (vt', adv')
    /\ firstn 1 vt'
       = firstn 1 (vtargets (backward 0.99 1 1
                     [mkStep 0 0 1 0.5 true; mkStep 0 0 2 0.7 false] 3)).
Proof.
  exact (proj2 (vtrace_terminal_boundary [0; 0] [0; 0] 0.99 [1; 2] [0.5; 0.7] 3
                  [true; false] 1 1 _ _ 0%nat eq_refl eq_refl)).
Defined.

Lemma vtrace_ok_lengths mu pi gamma Rs Vs last_V dones cr cp vt adv :
  vtrace mu pi gamma Rs Vs last_V dones cr cp = Ok (vt, adv) ->
  length vt = length pi /\ length adv = length pi.
Proof.
  unfold vtrace. intros H.
  destruct (zip_steps mu pi Rs Vs dones) as [steps|] eqn:E; [|discriminate].
  inversion H; subst; clear H.
  destruct (zip_steps_length _ _ _ _ _ _ E) as (_ & Lp & _).
  destruct (backward_lengths gamma cr cp steps last_V) as [Lv La]. split; congruence.
Qed.

End VTraceFacts.

(** * Properties of the agent *)

Module AgentFacts.
Import Monad Monad.Notations Tensor Env Agent.
Local Open Scope R_scope.

(** ** Strings: the file names of a checkpoint *)

Lemma append_length (s1 s2 : string) :
  String.length (s1 ++ s2) = (String.length s1 + String.length s2)%nat.
Proof. induction s1 as [|a s1 IH]; simpl; [reflexivity | now rewrite IH]. Qed.

Lemma append_inv_head (p s1 s2 : string) :
  (p ++ s1 = p ++ s2)%string -> s1 = s2.
Proof.
  induction p as [|a p IH]; simpl; intros H; [exact H|].
  injection H as H. auto.
Qed.

Lemma append_inv_tail (b s1 s2 : string) :
  (s1 ++ b = s2 ++ b)%string -> s1 = s2.
Proof.
  revert s2. induction s1 as [|a s1 IH]; intros [|a2 s2] H; simpl in H.
  - reflexivity.
  - apply (f_equal String.length) in H. simpl in H. rewrite append_length in H. lia.
  - apply (f_equal String.length) in H. simpl in H. rewrite append_length in H. lia.
  - injection H as Ha H. subst a2. f_equal. auto.
Qed.

Lemma format_int_inj (n n' : Z) : format_int n = format_int n' -> n = n'.
Proof.
  unfold format_int. intros H.
  apply DecimalZ.to_int_inj.
  assert (N : forall z, Z.to_int z <> Decimal.Pos Decimal.Nil
                        /\ Z.to_int z <> Decimal.Neg Decimal.Nil).
  { intros [|p|p]; simpl; split; try discriminate;
      intros E; injection E as E; exact (DecimalPos.Unsigned.to_uint_nonnil p E). }
  destruct (N n) as [N1 N2], (N n') as [N1' N2'].
  pose proof (NilZero.isi _ N1 N2) as I.
  pose proof (NilZero.isi _ N1' N2') as I'.
  rewrite H in I. congruence.
Qed.

Lemma agent_file_inj (logdir : string) (n n' : Z) :
  agent_file logdir n = agent_file logdir n' -> n = n'.
Proof.
  unfold agent_file, joinpath. intros H.
  apply append_inv_head in H. apply (append_inv_head "/") in H.
  apply (append_inv_head "agent_") in H. apply append_inv_tail in H.
  apply format_int_inj; exact H.
Qed.

Lemma moments_file_inj (logdir : string) (n n' : Z) :
  moments_file logdir n = moments_file logdir n' -> n = n'.
Proof.
  unfold moments_file, joinpath. intros H.
  apply append_inv_tail in H.
  apply append_inv_head in H. apply (append_inv_head "/") in H.
  apply (append_inv_head "obs_moments_") in H.
  apply format_int_inj; exact H.
Qed.

(** ** [get_wrapper] and [checkpoint] *)

Lemma get_wrapper_standardizer (env : Env) (w : Wrapper) :
  get_wrapper env "VecStandardizeObservation" = Some w ->
  In w (wrappers env) /\ exists m v, w = VecStandardizeObservation m v.
Proof.
  unfold get_wrapper. intros H. apply find_some in H. destruct H as [Hin Hn].
  split; [exact Hin|].
  destruct w; simpl in Hn; try discriminate. eauto.
Qed.

Lemma get_wrapper_none (env : Env) :
  get_wrapper env "VecStandardizeObservation" = None ->
  forall m v, ~ In (VecStandardizeObservation m v) (wrappers env).
Proof.
  unfold get_wrapper. intros H m v Hin.
  pose proof (find_none _ _ H _ Hin) as Hn. simpl in Hn. discriminate.
Qed.

Lemma agent_file_not_moments_file (logdir : string) (n n' : Z) :
  agent_file logdir n <> moments_file logdir n'.
Proof.
  unfold agent_file, moments_file, joinpath. intros H.
  assert (A : forall a b c : string, ((a ++ b) ++ c = a ++ (b ++ c))%string).
  { induction a as [|x a IH]; simpl; intros; [reflexivity | now rewrite IH]. }
  rewrite A in H. apply append_inv_head in H.
  simpl in H. discriminate.
Qed.

Example agent_file_12 : agent_file "logs" 12 = "logs/agent_12.pth"%string.
Proof. reflexivity. Qed.

Example moments_file_0 : moments_file "logs" 0 = "logs/obs_moments_0.pth"%string.
Proof. reflexivity. Qed.

Example get_wrapper_cartpole :
  get_wrapper Toy.cartpole "VecStandardizeObservation"
  = Some (VecStandardizeObservation [0; 0; 0; 0] [1; 1; 1; 1]).
Proof. reflexivity. Qed.

Example get_wrapper_absent :
  get_wrapper Toy.multi_binary_env "VecStandardizeObservation" = None.
Proof. reflexivity. Qed.

Lemma read_file_write_same (X : Externals) (s : State X) path f :
  read_file path (write_file path f s) = Some f.
Proof.
  unfold read_file, write_file; cbn [files find fst snd].
  rewrite String.eqb_refl. reflexivity.
Qed.

Lemma read_file_write_other (X : Externals) (s : State X) path path' f :
  path' <> path ->
  read_file path (write_file path' f s) = read_file path s.
Proof.
  intros H. unfold read_file, write_file; cbn [files find fst snd].
  destruct (String.eqb_spec path' path) as [E|_]; [destruct (H E) | reflexivity].
Qed.

(** C8: a checkpoint at iteration [n] never raises; it writes the model
    parameters to the file named after [n], and writes the running mean and
    variance of the observation standardizer to a second file named after the
    same [n] exactly when such a wrapper is in the environment stack.  The
    file names determine [n]. *)
Theorem checkpoint_writes (X : Externals) (s : State X) (logdir : string) (n : Z) :
  exists s' writes,
    checkpoint logdir n s = (s', Ok tt)
    /\ files s' = writes ++ files s
    /\ In (agent_file logdir n, StateDict X (params s) (total_timestep s)) writes
    /\ read_file (agent_file logdir n) s'
       = Some (StateDict X (params s) (total_timestep s))
    /\ ((exists m v, In (VecStandardizeObservation m v) (wrappers (env s)))
        <-> (exists m v, In (moments_file logdir n, Pickle X m v) writes))
    /\ (forall m v, In (moments_file logdir n, Pickle X m v) writes ->
          In (VecStandardizeObservation m v) (wrappers (env s))
          /\ read_file (moments_file logdir n) s' = Some (Pickle X m v))
    /\ (forall path f, In (path, f) writes ->
          path = agent_file logdir n \/ path = moments_file logdir n)
    /\ (forall n', agent_file logdir n = agent_file logdir n' -> n = n')
    /\ (forall n', moments_file logdir n = moments_file logdir n' -> n = n').
Proof.
  unfold checkpoint, bind, get, modify, ret, raise.
  destruct (get_wrapper (env s) "VecStandardizeObservation") as [w|] eqn:G; cbn [env write_file].
  - destruct (get_wrapper_standardizer _ _ G) as [Hin (m & v & ->)].
    eexists. exists [(moments_file logdir n, Pickle X m v);
                     (agent_file logdir n, StateDict X (params s) (total_timestep s))].
    split; [reflexivity|]. cbn [files].
    split; [reflexivity|].
    split; [right; left; reflexivity|].
    split.
    { rewrite read_file_write_other, read_file_write_same; [reflexivity|].
      intros E. symmetry in E. exact (agent_file_not_moments_file _ _ _ E). }
    split.
    { split; intros _; [exists m, v; left; reflexivity | exists m, v; exact Hin]. }
    split.
    { intros m' v' [E|[E|[]]]; [|inversion E].
      inversion E; subst m' v'. split; [exact Hin|].
      apply read_file_write_same. }
    split.
    { intros path f [E|[E|[]]]; inversion E; auto. }
    split; intros n'; [apply agent_file_inj | apply moments_file_inj].
  - eexists. exists [(agent_file logdir n, StateDict X (params s) (total_timestep s))].
    split; [reflexivity|]. cbn [files].
    split; [reflexivity|].
    split; [left; reflexivity|].
    split.
    { apply read_file_write_same. }
    split.
    { split.
      - intros (m & v & Hin). destruct (get_wrapper_none _ G m v Hin).
      - intros (m & v & [E|[]]). inversion E. }
    split.
    { intros m v [E|[]]. inversion E. }
    split.
    { intros path f [E|[]]; inversion E; auto. }
    split; intros n'; [apply agent_file_inj | apply moments_file_inj].
Qed.

(** ** [__init__] and [choose_action] *)

Example init_cartpole : @init Toy.X Toy.cfg Toy.cartpole 0%nat 0%nat [] = Ok Toy.agent0.
Proof. reflexivity. Qed.

(** C10: on an environment whose action space is neither [Discrete] nor
    [Box], the constructor returns an agent without the [action_head]
    attribute, and every [choose_action] on that agent raises
    [AttributeError] when it reads the attribute, leaving the agent as it
    was. *)
Theorem init_without_action_head (X : Externals) (cfg : Config) (e : Env)
    (params0 : Params X) (rng0 : Rng X) (files0 : list (string * File X)) :
  nn_sizes cfg <> [] ->
  (forall n, action_space e <> Discrete n) ->
  (forall shape, action_space e <> Box shape) ->
  exists s,
    @init X cfg e params0 rng0 files0 = Ok s
    /\ action_head s = None
    /\ forall obs, choose_action obs s = (s, Raise AttributeError).
Proof.
  intros Hs Hd Hb. unfold init.
  destruct (rev (nn_sizes cfg)) as [|feature_dim rest] eqn:E.
  { apply (f_equal (@rev nat)) in E. rewrite rev_involutive in E. contradiction. }
  assert (Hh : match action_space e with
               | Discrete n => Some (CategoricalHead feature_dim n)
               | Box shape => Some (DiagGaussianHead feature_dim (flatdim (Box shape))
                                                     (agent_std0 cfg))
               | _ => None
               end = None).
  { destruct (action_space e) as [n|shape|nvec|n]; try reflexivity.
    - destruct (Hd n eq_refl).
    - destruct (Hb shape eq_refl). }
  rewrite Hh. eexists. split; [reflexivity|]. split; [reflexivity|].
  intros obs. reflexivity.
Qed.

Lemma init_without_action_head_witness :
  exists s,
    @init Toy.X Toy.cfg Toy.multi_binary_env 0%nat 0%nat [] = Ok s
    /\ action_head s = None
    /\ forall obs, choose_action obs s = (s, Raise AttributeError).
Proof.
  apply (init_without_action_head Toy.X Toy.cfg Toy.multi_binary_env 0%nat 0%nat []);
    simpl; discriminate.
Defined.

(** ** Tensors: elementwise operations and the loss *)

Lemma nth_map_lt {A B : Type} (g : A -> B) (l : list A) (d : A) (d' : B) (i : nat) :
  (i < length l)%nat -> nth i (map g l) d' = g (nth i l d).
Proof.
  intros H. rewrite (nth_indep _ d' (g d)) by (rewrite length_map; exact H).
  apply map_nth.
Qed.

Lemma elementwise_same_length (f : R -> R -> R) (a b : list R) :
  length a = length b ->
  exists c, elementwise f a b = Ok c
            /\ length c = length a
            /\ forall i, (i < length a)%nat -> nth i c 0 = f (nth i a 0) (nth i b 0).
Proof.
  intros H. unfold elementwise. rewrite H, Nat.eqb_refl.
  eexists. split; [reflexivity|].
  split; [rewrite length_map, length_combine; lia|].
  intros i Hi.
  rewrite (nth_map_lt _ _ (0, 0)) by (rewrite length_combine; lia).
  rewrite combine_nth by exact H. reflexivity.
Qed.

(** On tensors of one common length the loss of [learn] is, entry by entry,
    the per-timestep loss of the design. *)
Lemma loss_terms_same_length (cfg : Config) (logprobs entropies Vs vs As : list R) :
  length entropies = length logprobs -> length Vs = length logprobs ->
  length vs = length logprobs -> length As = length logprobs ->
  exists policy_loss entropy_loss value_loss loss,
    loss_terms cfg logprobs entropies Vs vs As
    = Ok (policy_loss, entropy_loss, value_loss, loss)
    /\ policy_loss = map (fun i => - nth i logprobs 0 * nth i As 0) (seq 0 (length logprobs))
    /\ entropy_loss = map Ropp entropies
    /\ value_loss = map (fun i => (nth i Vs 0 - nth i vs 0) * (nth i Vs 0 - nth i vs 0))
                        (seq 0 (length logprobs))
    /\ loss = map (fun i => timestep_loss cfg (nth i logprobs 0) (nth i entropies 0)
                                          (nth i Vs 0) (nth i vs 0) (nth i As 0))
                  (seq 0 (length logprobs)).
Proof.
  intros He HV Hv HA. unfold loss_terms, mse_loss.
  destruct (elementwise_same_length Rmult (neg logprobs) As) as (pl & -> & Lpl & Npl).
  { unfold neg. rewrite length_map. congruence. }
  destruct (elementwise_same_length (fun x y => (x - y) * (x - y)) Vs vs)
    as (vl & -> & Lvl & Nvl); [congruence|].
  unfold neg in Lpl, Npl. rewrite length_map in Lpl, Npl.
  destruct (elementwise_same_length Rplus pl (scale (agent_value_coef cfg) vl))
    as (pa & -> & Lpa & Npa).
  { unfold scale. rewrite length_map. congruence. }
  destruct (elementwise_same_length Rplus pa
              (scale (agent_entropy_coef cfg) (neg entropies)))
    as (lt & -> & Llt & Nlt).
  { unfold scale, neg. rewrite !length_map. congruence. }
  exists pl, (neg entropies), vl, lt.
  split; [reflexivity|].
  assert (Epl : forall i, (i < length logprobs)%nat -> nth i pl 0 = - nth i logprobs 0 * nth i As 0).
  { intros i Hi. rewrite Npl by exact Hi.
    rewrite (nth_map_lt _ _ 0) by exact Hi. reflexivity. }
  assert (Evl : forall i, (i < length logprobs)%nat ->
                  nth i vl 0 = (nth i Vs 0 - nth i vs 0) * (nth i Vs 0 - nth i vs 0)).
  { intros i Hi. apply Nvl. lia. }
  split.
  { apply (nth_ext _ _ 0 0).
    - rewrite length_map, length_seq. exact Lpl.
    - intros i Hi. rewrite Lpl in Hi.
      rewrite (nth_map_lt _ _ 0%nat) by (rewrite length_seq; exact Hi).
      rewrite seq_nth by exact Hi. apply Epl. exact Hi. }
  split; [reflexivity|].
  split.
  { apply (nth_ext _ _ 0 0).
    - rewrite length_map, length_seq. congruence.
    - intros i Hi. assert (Hi' : (i < length logprobs)%nat) by lia.
      rewrite (nth_map_lt _ _ 0%nat) by (rewrite length_seq; exact Hi').
      rewrite seq_nth by exact Hi'. apply Evl. exact Hi'. }
  apply (nth_ext _ _ 0 0).
  - rewrite length_map, length_seq. congruence.
  - intros i Hi. assert (Hi' : (i < length logprobs)%nat) by lia.
    rewrite (nth_map_lt _ _ 0%nat) by (rewrite length_seq; exact Hi').
    rewrite seq_nth by exact Hi'. simpl.
    rewrite Nlt by lia. rewrite Npa by lia.
    unfold scale, neg.
    rewrite (nth_map_lt _ vl 0) by lia.
    rewrite (nth_map_lt _ (map Ropp entropies) 0) by (rewrite length_map; lia).
    rewrite (nth_map_lt _ entropies 0) by lia.
    rewrite Epl, Evl by exact Hi'. unfold timestep_loss. reflexivity.
Qed.

(** ** [choose_action] on a batch of rows *)

Lemma sample_rows_length (X : Externals) (ds : list (Dist X)) (g : Rng X) :
  length (fst (sample_rows X ds g)) = length ds.
Proof.
  revert g. induction ds as [|d ds IH]; intros g; simpl; [reflexivity|].
  destruct (dist_sample X d g) as [a g'].
  specialize (IH g'). destruct (sample_rows X ds g') as [rest g'']. simpl in *. congruence.
Qed.

Lemma same_but_rng_refl (X : Externals) (s : State X) : same_but_rng s s.
Proof. repeat split. Qed.

Lemma same_but_rng_set (X : Externals) (s : State X) g : same_but_rng s (set_rng g s).
Proof. repeat split. Qed.

Lemma choose_action_cases (X : Externals) (obs : list (Obs X)) (s : State X) :
  (action_head s = None /\ choose_action obs s = (s, Raise AttributeError))
  \/ (exists h co g,
        action_head s = Some h
        /\ choose_action obs s = (set_rng g s, Ok co)
        /\ length (out_action_logprob co) = length obs
        /\ length (out_entropy co) = length obs
        /\ length (out_V co) = length obs).
Proof.
  unfold choose_action, bind, get, modify, ret, raise.
  destruct (action_head s) as [h|] eqn:Hh; [right | left; split; reflexivity].
  pose proof (sample_rows_length X
                (map (head_forward X (params s) h) (map (feature_network X (params s)) obs))
                (rng s)) as L.
  destruct (sample_rows X _ (rng s)) as [action g]. simpl in L.
  rewrite !length_map in L.
  exists h. eexists. exists g.
  split; [reflexivity|]. split; [reflexivity|]. simpl.
  rewrite !length_map, length_combine, !length_map. repeat split; lia.
Qed.

Lemma choose_action_state (X : Externals) (obs : list (Obs X)) (s : State X) :
  same_but_rng s (fst (choose_action obs s)).
Proof.
  destruct (choose_action_cases X obs s) as [[_ ->] | (h & co & g & _ & -> & _)];
    simpl; [apply same_but_rng_refl | apply same_but_rng_set].
Qed.

(** ** Splitting a flat tensor by trajectory lengths *)

Lemma split_with_sizes_spec (sizes : list nat) :
  forall l, list_sum sizes = length l ->
    concat (split_with_sizes l sizes) = l
    /\ map (@length R) (split_with_sizes l sizes) = sizes.
Proof.
  induction sizes as [|n sizes IH]; intros l H; simpl in *.
  - destruct l; [split; reflexivity | discriminate].
  - destruct (IH (skipn n l)) as [IH1 IH2].
    { rewrite length_skipn. lia. }
    rewrite IH1, IH2, firstn_skipn, length_firstn.
    split; [reflexivity|]. f_equal. lia.
Qed.

Lemma split_squeeze_ok (rows : list R) (sizes : list nat) (parts : list (list R)) :
  split (squeeze rows) sizes = Ok parts ->
  squeeze rows = Vec rows
  /\ list_sum sizes = length rows
  /\ parts = split_with_sizes rows sizes.
Proof.
  unfold squeeze, split.
  destruct rows as [|x [|y rows]]; try discriminate;
    match goal with
    | |- context [Nat.eqb ?a ?b] => destruct (Nat.eqb_spec a b) as [E|E]; try discriminate
    end;
    intros H; inversion H; auto.
Qed.

(** ** The V-trace loop over a batch *)

Lemma mapM_length {A B : Type} (f : A -> result B) (l : list A) (l' : list B) :
  mapM f l = Ok l' -> length l' = length l.
Proof.
  revert l'. induction l as [|x l IH]; simpl; intros l' H.
  - inversion H; reflexivity.
  - destruct (f x); [|discriminate]. destruct (mapM f l); [|discriminate].
    inversion H; subst; simpl. f_equal. apply IH. reflexivity.
Qed.

Lemma mapM_torch_cat {A : Type} (f : A -> list R) (l : list A) (l' : list (list R)) :
  mapM (fun x => torch_cat (f x)) l = Ok l' -> l' = map f l.
Proof.
  revert l'. induction l as [|x l IH]; simpl; intros l' H.
  - inversion H; reflexivity.
  - destruct (f x) as [|y ys] eqn:E; simpl in H; [discriminate|].
    destruct (mapM (fun x => torch_cat (f x)) l); [|discriminate].
    inversion H; subst. f_equal. apply IH. reflexivity.
Qed.

Lemma np_concatenate_ok {A : Type} (arrays : list (list A)) (l : list A) :
  np_concatenate arrays = Ok l -> arrays <> [] /\ l = concat arrays.
Proof.
  destruct arrays; simpl; intros H; [discriminate|].
  inversion H. split; [discriminate | reflexivity].
Qed.

Lemma concat_map_singleton {A B : Type} (f : A -> B) (l : list A) :
  concat (map (fun x => [f x]) l) = map f l.
Proof. induction l; simpl; congruence. Qed.

Lemma zip5_third {A B C D E : Type} (la : list A) (lb : list B) (lc : list C)
    (ld : list D) (le : list E) :
  length lb = length la -> length lc = length la -> length ld = length la ->
  length le = length la ->
  map (fun row => match row with (_, _, c, _, _) => c end) (zip5 la lb lc ld le) = lc.
Proof.
  revert lb lc ld le.
  induction la as [|a la IH]; intros [|b lb] [|c lc] [|d ld] [|e le];
    simpl; intros H1 H2 H3 H4; try discriminate; [reflexivity|].
  f_equal. apply IH; congruence.
Qed.

Lemma vtrace_all_lengths (X : Externals) (s : State X)
    (rows : list (Trajectory X * list R * list R * list R * R))
    (vAs : list (list R * list R)) :
  vtrace_all s rows = Ok vAs ->
  map (fun vA => length (fst vA)) vAs
  = map (fun row => match row with (_, _, lp, _, _) => length lp end) rows
  /\ map (fun vA => length (snd vA)) vAs
     = map (fun row => match row with (_, _, lp, _, _) => length lp end) rows.
Proof.
  unfold vtrace_all. revert vAs.
  induction rows as [|[[[[traj blp] lp] V] last_V] rows IH]; simpl; intros vAs H.
  - inversion H; split; reflexivity.
  - destruct (VTrace.vtrace blp lp (gamma s) (rewards traj) V last_V
                (reach_terminal traj) (clip_rho s) (clip_pg_rho s))
      as [[vt adv]|] eqn:Ev; [|discriminate].
    destruct (VTraceFacts.vtrace_ok_lengths _ _ _ _ _ _ _ _ _ _ _ Ev) as [Lv La].
    match type of H with
    | match ?m with Ok _ => _ | Raise _ => _ end = _ =>
        destruct m as [rest|] eqn:Er; [|discriminate]
    end.
    inversion H; subst; clear H.
    destruct (IH rest eq_refl) as [IH1 IH2]. simpl. split; congruence.
Qed.

Lemma length_concat_sum {A : Type} (ls : list (list A)) :
  length (concat ls) = list_sum (map (@length A) ls).
Proof.
  induction ls as [|l ls IH]; simpl; [reflexivity|]. rewrite length_app, IH. reflexivity.
Qed.

(** ** [learn]: the metrics *)

Lemma bind_lift {S A B : Type} (r : result A) (k : A -> M S B) (s : S) :
  bind (lift r) k s = match r with Ok a => k a s | Raise e => (s, Raise e) end.
Proof. destruct r; reflexivity. Qed.

Lemma bind_get {S B : Type} (k : S -> M S B) (s : S) : bind get k s = k s s.
Proof. reflexivity. Qed.

Lemma squeeze_vec (l : list R) : squeeze l = Vec l <-> length l <> 1%nat.
Proof.
  destruct l as [|x [|y l]]; simpl; split; intros H; try reflexivity; try discriminate.
  congruence.
Qed.

(** What a successful run of the first half of [learn] has computed: the
    forward pass on the observations of the batch, the V-trace targets of
    every trajectory, and tensors of one common length, the number of
    timesteps of the batch. *)
Lemma learn_metrics_ok (X : Externals) (D : list (Trajectory X)) (s s1 : State X)
    (m : Metrics) :
  learn_metrics D s = (s1, Ok m) ->
  same_but_rng s s1
  /\ (let N := list_sum (map (@len X) D) in
      length (m_logprobs m) = N /\ length (m_entropies m) = N /\ length (m_Vs m) = N
      /\ length (m_vs m) = N /\ length (m_As m) = N /\ N <> 1%nat)
  /\ exists co vAs,
       choose_action (concat (map (fun traj => removelast (numpy_observations traj)) D)) s
       = (s1, Ok co)
       /\ m_logprobs m = out_action_logprob co
       /\ m_entropies m = out_entropy co
       /\ m_Vs m = out_V co
       /\ vtrace_all s1
            (zip5 D (map (@info_action_logprob X) D)
                  (split_with_sizes (out_action_logprob co) (map (@len X) D))
                  (split_with_sizes (out_V co) (map (@len X) D))
                  (map (fun traj => V_head X (params s1)
                                      (feature_network X (params s1) (last_observation traj)))
                       D))
          = Ok vAs
       /\ m_vs m = concat (map fst vAs)
       /\ m_As m = (if agent_standardize_adv (config s)
                    then standardize (concat (map snd vAs))
                    else concat (map snd vAs)).
Proof.
  unfold learn_metrics. rewrite !bind_lift.
  destruct (mapM _ D) as [blps|] eqn:Eb; [|discriminate].
  apply mapM_torch_cat in Eb. subst blps.
  rewrite bind_lift.
  destruct (np_concatenate _) as [obs|] eqn:Eo; [|discriminate].
  apply np_concatenate_ok in Eo. destruct Eo as [_ ->].
  set (obs := concat _).
  unfold bind at 1.
  destruct (choose_action_cases X obs s) as [[_ Ec] | (h & co & g & Hh & Ec & L1 & L2 & L3)];
    rewrite Ec; [discriminate|].
  rewrite bind_lift.
  destruct (np_concatenate _) as [last_obs|] eqn:El; [|discriminate].
  apply np_concatenate_ok in El. destruct El as [_ ->].
  rewrite concat_map_singleton.
  rewrite bind_get, bind_lift.
  destruct (split (squeeze (out_action_logprob co)) _) as [lparts|] eqn:Sl; [|discriminate].
  apply split_squeeze_ok in Sl. destruct Sl as (Ql & Sl & ->).
  rewrite bind_lift.
  destruct (split (squeeze (out_V co)) _) as [Vparts|] eqn:SV; [|discriminate].
  apply split_squeeze_ok in SV. destruct SV as (QV & SV & ->).
  rewrite bind_lift, map_map.
  destruct (vtrace_all _ _) as [vAs|] eqn:Ev; [|discriminate].
  rewrite bind_lift.
  destruct (np_concatenate (map fst vAs)) as [vs|] eqn:Evs; [|discriminate].
  apply np_concatenate_ok in Evs. destruct Evs as [_ ->].
  rewrite bind_lift.
  destruct (np_concatenate (map snd vAs)) as [As|] eqn:EAs; [|discriminate].
  apply np_concatenate_ok in EAs. destruct EAs as [_ ->].
  assert (Qe : squeeze (out_entropy co) = Vec (out_entropy co)).
  { apply squeeze_vec. apply squeeze_vec in Ql. congruence. }
  rewrite Ql, Qe, QV. unfold ret. intros H. inversion H; subst s1 m; clear H.
  cbn [m_logprobs m_entropies m_Vs m_vs m_As].
  split; [apply same_but_rng_set|].
  destruct (vtrace_all_lengths X _ _ _ Ev) as [Lv La].
  destruct (split_with_sizes_spec _ _ Sl) as [_ Ml].
  destruct (split_with_sizes_spec _ _ SV) as [_ MV].
  assert (Z3 : map (fun row : Trajectory X * list R * list R * list R * R =>
                      match row with (_, _, lp, _, _) => length lp end)
                   (zip5 D (map (@info_action_logprob X) D)
                         (split_with_sizes (out_action_logprob co) (map (@len X) D))
                         (split_with_sizes (out_V co) (map (@len X) D))
                         (map (fun x => V_head X (params (set_rng g s))
                                          (feature_network X (params (set_rng g s))
                                                           (last_observation x))) D))
                = map (@len X) D).
  { rewrite <- Ml at 3. rewrite <- (zip5_third D (map (@info_action_logprob X) D)
                 (split_with_sizes (out_action_logprob co) (map (@len X) D))
                 (split_with_sizes (out_V co) (map (@len X) D))
                 (map (fun x => V_head X (params (set_rng g s))
                                  (feature_network X (params (set_rng g s))
                                                   (last_observation x))) D)) at 2.
    - rewrite map_map. apply map_ext. intros [[[[? ?] ?] ?] ?]. reflexivity.
    - apply length_map.
    - rewrite <- (length_map (@length R)), Ml. apply length_map.
    - rewrite <- (length_map (@length R)), MV. apply length_map.
    - apply length_map. }
  rewrite Z3 in Lv, La.
  assert (Cv : length (concat (map fst vAs)) = list_sum (map (@len X) D)).
  { rewrite length_concat_sum, map_map, Lv. reflexivity. }
  assert (CA : length (concat (map snd vAs)) = list_sum (map (@len X) D)).
  { rewrite length_concat_sum, map_map, La. reflexivity. }
  split.
  { cbv zeta. split; [congruence|]. split; [congruence|]. split; [congruence|].
    split; [exact Cv|]. split.
    - destruct (agent_standardize_adv _); [unfold standardize; rewrite length_map|]; exact CA.
    - apply squeeze_vec in Ql. congruence. }
  exists co, vAs. repeat split; try reflexivity. exact Ev.
Qed.

(** Whatever the outcome, the first half of [learn] touches nothing but the
    random generator. *)
Lemma learn_metrics_state (X : Externals) (D : list (Trajectory X)) (s : State X) :
  same_but_rng s (fst (learn_metrics D s)).
Proof.
  destruct (learn_metrics D s) as [s1 [m|e]] eqn:E.
  { apply learn_metrics_ok in E. apply E. }
  revert E. unfold learn_metrics. rewrite !bind_lift.
  destruct (mapM _ D) as [blps|];
    [|intros H; inversion H; apply same_but_rng_refl].
  rewrite bind_lift.
  destruct (np_concatenate _) as [obs|];
    [|intros H; inversion H; apply same_but_rng_refl].
  unfold bind at 1.
  destruct (choose_action_cases X obs s) as [[_ Ec] | (h & co & g & Hh & Ec & _)];
    rewrite Ec; [intros H; inversion H; apply same_but_rng_refl|].
  rewrite bind_lift.
  destruct (np_concatenate _) as [last_obs|];
    [|intros H; inversion H; apply same_but_rng_set].
  rewrite bind_get, bind_lift.
  destruct (split (squeeze (out_action_logprob co)) _) as [lparts|];
    [|intros H; inversion H; apply same_but_rng_set].
  rewrite bind_lift.
  destruct (split (squeeze (out_V co)) _) as [Vparts|];
    [|intros H; inversion H; apply same_but_rng_set].
  rewrite bind_lift.
  destruct (vtrace_all _ _) as [vAs|];
    [|intros H; inversion H; apply same_but_rng_set].
  rewrite bind_lift.
  destruct (np_concatenate (map fst vAs)) as [vs|];
    [|intros H; inversion H; apply same_but_rng_set].
  rewrite bind_lift.
  destruct (np_concatenate (map snd vAs)) as [As|];
    [|intros H; inversion H; apply same_but_rng_set].
  destruct (squeeze (out_action_logprob co)), (squeeze (out_entropy co)),
    (squeeze (out_V co));
    unfold raise, ret; intros H; inversion H; apply same_but_rng_set.
Qed.

(** ** [learn]: the update *)

(** The second half of [learn] on tensors of one common length: the loss is
    the mean per-timestep loss; the optimizer is called; the scheduler, when
    enabled, is stepped with the counter as it stands; then the counter takes
    the timesteps of the batch.  The only exception is a scheduler that was
    asked for but never created. *)
Lemma learn_update_run (X : Externals) (D : list (Trajectory X)) (m : Metrics)
    (s : State X) :
  length (m_entropies m) = length (m_logprobs m) ->
  length (m_Vs m) = length (m_logprobs m) ->
  length (m_vs m) = length (m_logprobs m) ->
  length (m_As m) = length (m_logprobs m) ->
  exists policy_loss entropy_loss value_loss,
    let loss := mean_timestep_loss (config s) (m_logprobs m) (m_entropies m) (m_Vs m)
                                   (m_vs m) (m_As m) in
    let max_norm := agent_max_grad_norm (config s) in
    let pg := backward_clip_step X (params s) loss max_norm in
    let s2 := set_params (fst pg)
                (add_calls [ZeroGrad; Backward loss; ClipGradNorm max_norm; OptimizerStep] s) in
    let count := wrap64 (total_timestep s + batch_timesteps D) in
    let out := {| out_loss := loss;
                  out_grad_norm := snd pg;
                  out_policy_loss := mean policy_loss;
                  out_entropy_loss := mean entropy_loss;
                  out_policy_entropy := - mean entropy_loss;
                  out_value_loss := mean value_loss |} in
    learn_update D m s
    = if agent_use_lr_scheduler (config s)
      then if lr_scheduler s
           then (set_total_timestep count
                   (add_calls [SchedulerStep (total_timestep s)] s2), Ok out)
           else (s2, Raise AttributeError)
      else (set_total_timestep count s2, Ok out).
Proof.
  intros He HV Hv HA.
  destruct (loss_terms_same_length (config s) _ _ _ _ _ He HV Hv HA)
    as (pl & el & vl & lt & E & _ & _ & _ & Elt).
  exists pl, el, vl. cbv zeta.
  unfold learn_update. rewrite bind_get, bind_lift, E.
  unfold mean_timestep_loss. rewrite <- Elt.
  destruct (backward_clip_step X (params s) (mean lt) (agent_max_grad_norm (config s)))
    as [params' grad_norm].
  unfold bind, modify, ret, raise, get, batch_timesteps. cbn [fst snd].
  destruct (agent_use_lr_scheduler (config s)); [|reflexivity].
  cbn [lr_scheduler set_params add_calls].
  destruct (lr_scheduler s); reflexivity.
Qed.

(** ** [learn] returns on a well-formed batch *)

Lemma well_formed_trajectory_spec (X : Externals) (traj : Trajectory X) :
  well_formed_trajectory traj = true ->
  (1 <= len traj)%nat
  /\ length (observations traj) = len traj
  /\ length (rewards traj) = len traj
  /\ length (info_action_logprob traj) = len traj
  /\ length (reach_terminal traj) = len traj.
Proof.
  unfold well_formed_trajectory. rewrite !andb_true_iff.
  intros [[[[H1 H2] H3] H4] H5].
  apply Nat.leb_le in H1. apply Nat.eqb_eq in H2, H3, H4, H5. auto.
Qed.

Lemma mapM_torch_cat_ok {A : Type} (f : A -> list R) (l : list A) :
  Forall (fun x => (1 <= length (f x))%nat) l ->
  mapM (fun x => torch_cat (f x)) l = Ok (map f l).
Proof.
  induction 1 as [|x l Hx _ IH]; simpl; [reflexivity|].
  destruct (f x) as [|y ys]; simpl in *; [lia|]. rewrite IH. reflexivity.
Qed.

Lemma vtrace_all_ok (X : Externals) (s : State X) (D : list (Trajectory X)) :
  Forall (fun traj => well_formed_trajectory traj = true) D ->
  forall (lparts Vparts : list (list R)) (last_Vs : list R),
    map (@length R) lparts = map (@len X) D ->
    map (@length R) Vparts = map (@len X) D ->
    length last_Vs = length D ->
    exists vAs,
      vtrace_all s (zip5 D (map (@info_action_logprob X) D) lparts Vparts last_Vs) = Ok vAs
      /\ length vAs = length D.
Proof.
  unfold vtrace_all.
  induction 1 as [|traj D Ht _ IH]; intros [|lp lparts] [|V Vparts] [|lv last_Vs] Hl HV HL;
    simpl in Hl, HV, HL; try discriminate.
  - exists []. split; reflexivity.
  - injection Hl as Hlp Hl. injection HV as HVp HV. injection HL as HL.
    destruct (well_formed_trajectory_spec X traj Ht) as (_ & _ & Lr & Li & Ld).
    destruct (VTraceFacts.zip_steps_total (info_action_logprob traj) lp (rewards traj) V
                (reach_terminal traj)) as [steps Es]; try congruence.
    destruct (IH lparts Vparts last_Vs Hl HV HL) as (vAs & E & Len).
    simpl. unfold VTrace.vtrace at 1. rewrite Es, E.
    eexists. split; [reflexivity|]. simpl. congruence.
Qed.

Lemma length_batch_observations (X : Externals) (D : list (Trajectory X)) :
  Forall (fun traj => well_formed_trajectory traj = true) D ->
  length (concat (map (fun traj => removelast (numpy_observations traj)) D))
  = list_sum (map (@len X) D).
Proof.
  induction 1 as [|traj D Ht _ IH]; simpl; [reflexivity|].
  rewrite length_app, IH. f_equal.
  unfold numpy_observations. rewrite removelast_last.
  apply (well_formed_trajectory_spec X traj Ht).
Qed.

Lemma learn_metrics_succeeds (X : Externals) (D : list (Trajectory X)) (s : State X) :
  well_formed_batch D = true ->
  action_head s <> None ->
  exists s1 m, learn_metrics D s = (s1, Ok m).
Proof.
  unfold well_formed_batch. rewrite andb_true_iff. intros [HN HD] Hh.
  apply Nat.leb_le in HN. rewrite forallb_forall in HD. apply Forall_forall in HD.
  assert (Dne : D <> []) by (intros ->; simpl in HN; lia).
  unfold learn_metrics. rewrite !bind_lift.
  rewrite mapM_torch_cat_ok.
  2:{ eapply Forall_impl; [|exact HD]. intros traj Ht.
      destruct (well_formed_trajectory_spec X traj Ht) as (H1 & _ & _ & H4 & _). lia. }
  rewrite bind_lift.
  pose proof (length_batch_observations X D HD) as Lobs.
  destruct D as [|traj0 D0] eqn:ED; [contradiction|]. rewrite <- ED in *.
  assert (Ec1 : forall {A : Type} (g : Trajectory X -> list A),
             np_concatenate (map g D) = Ok (concat (map g D))).
  { intros A g. rewrite ED. reflexivity. }
  rewrite Ec1. set (obs := concat _) in *.
  unfold bind at 1.
  destruct (choose_action_cases X obs s) as [[Hn _] | (h & co & g & _ & Ec & L1 & L2 & L3)];
    [contradiction|].
  rewrite Ec, bind_lift, Ec1, concat_map_singleton, bind_get, bind_lift.
  assert (Sq : forall l : list R, length l = length obs ->
                 split (squeeze l) (map (@len X) D)
                 = Ok (split_with_sizes l (map (@len X) D))).
  { intros l Hl.
    assert (Q : squeeze l = Vec l) by (apply squeeze_vec; lia).
    rewrite Q. unfold split.
    replace (list_sum (map (@len X) D) =? length l)%nat with true; [reflexivity|].
    symmetry. apply Nat.eqb_eq. congruence. }
  rewrite (Sq _ L1), bind_lift, (Sq _ L3), bind_lift, map_map.
  destruct (vtrace_all_ok X (set_rng g s) D HD
              (split_with_sizes (out_action_logprob co) (map (@len X) D))
              (split_with_sizes (out_V co) (map (@len X) D))
              (map (fun x => V_head X (params (set_rng g s))
                               (feature_network X (params (set_rng g s))
                                                (last_observation x))) D))
    as (vAs & Ev & Len).
  { apply split_with_sizes_spec. congruence. }
  { apply split_with_sizes_spec. congruence. }
  { apply length_map. }
  rewrite Ev, bind_lift.
  assert (Ec2 : forall {A : Type} (g : list R * list R -> list A),
             np_concatenate (map g vAs) = Ok (concat (map g vAs))).
  { intros A g0. destruct vAs; [rewrite ED in Len; discriminate | reflexivity]. }
  rewrite Ec2, bind_lift, Ec2.
  assert (Q : forall l : list R, length l = length obs -> squeeze l = Vec l).
  { intros l Hl. apply squeeze_vec. lia. }
  rewrite (Q _ L1), (Q _ L2), (Q _ L3).
  do 2 eexists. reflexivity.
Qed.

Lemma learn_ok (X : Externals) (D : list (Trajectory X)) (s s' : State X) (out : LearnOut) :
  learn D s = (s', Ok out) ->
  exists s1 m, learn_metrics D s = (s1, Ok m) /\ learn_update D m s1 = (s', Ok out).
Proof.
  unfold learn, bind.
  destruct (learn_metrics D s) as [s1 [m|e]]; [|discriminate].
  intros H. exists s1, m. auto.
Qed.

Lemma learn_succeeds (X : Externals) (D : list (Trajectory X)) (s : State X) :
  well_formed_batch D = true -> ready s = true ->
  exists s' out, learn D s = (s', Ok out).
Proof.
  unfold ready. rewrite andb_true_iff. intros HD [Hh Hs].
  destruct (learn_metrics_succeeds X D s HD) as (s1 & m & E).
  { destruct (action_head s); [discriminate | discriminate]. }
  destruct (learn_metrics_ok X D s s1 m E)
    as ((Hc & _ & _ & _ & _ & Hl & _) & (L1 & L2 & L3 & L4 & L5 & _) & _).
  destruct (learn_update_run X D m s1) as (pl & el & vl & U); try congruence.
  cbv zeta in U. unfold learn, bind. rewrite E, U, Hc, Hl.
  destruct (agent_use_lr_scheduler (config s)); [|eauto].
  simpl in Hs. rewrite Hs. eauto.
Qed.

(** The counter after a call of [learn]: the timesteps of the batch are
    added, in 64-bit arithmetic, when the call returns, and nothing is added
    when it raises. *)
Lemma learn_total_timestep (X : Externals) (D : list (Trajectory X)) (s : State X) :
  total_timestep (fst (learn D s))
  = match snd (learn D s) with
    | Ok _ => wrap64 (total_timestep s + batch_timesteps D)
    | Raise _ => total_timestep s
    end.
Proof.
  unfold learn, bind.
  pose proof (learn_metrics_state X D s) as St.
  destruct (learn_metrics D s) as [s1 [m|e]] eqn:E; simpl in St.
  - destruct (learn_metrics_ok X D s s1 m E) as (_ & (L1 & L2 & L3 & L4 & L5 & _) & _).
    destruct (learn_update_run X D m s1) as (pl & el & vl & U); try congruence.
    cbv zeta in U. rewrite U.
    destruct St as (_ & _ & _ & _ & Ht & _).
    destruct (agent_use_lr_scheduler (config s1)); [destruct (lr_scheduler s1)|];
      simpl; congruence.
  - simpl. apply St.
Qed.

Lemma wrap64_in_range (z : Z) :
  (int64_min <= z <= int64_max)%Z -> wrap64 z = z.
Proof.
  unfold int64_min, int64_max, wrap64.
  change (2 ^ 63)%Z with 9223372036854775808%Z.
  change (2 ^ 64)%Z with 18446744073709551616%Z.
  intros H. rewrite Z.mod_small; lia.
Qed.

Example wrap64_overflow : wrap64 (int64_max + 1) = int64_min.
Proof. reflexivity. Qed.

Example learn_empty_batch :
  learn (@nil (Trajectory Toy.X)) Toy.agent0 = (Toy.agent0, Raise ValueError).
Proof. reflexivity. Qed.

(** A batch of a single timestep: the squeezed column has no dimension left
    to split. *)
Example learn_single_timestep :
  snd (learn [@mkTrajectory Toy.X [1%nat] 2%nat [true] [1] [0] [true]] Toy.agent0)
  = Raise RuntimeError.
Proof. reflexivity. Qed.

Lemma batch_timesteps_nonneg (X : Externals) (D : list (Trajectory X)) :
  (0 <= batch_timesteps D)%Z.
Proof. unfold batch_timesteps. lia. Qed.

Lemma timesteps_of_nonneg (X : Externals) (ops : list (Op X)) : (0 <= timesteps_of ops)%Z.
Proof.
  induction ops as [|[obs|D|logdir n] ops IH]; simpl; try lia.
  pose proof (batch_timesteps_nonneg X D). lia.
Qed.

Lemma timesteps_of_app (X : Externals) (ops1 ops2 : list (Op X)) :
  timesteps_of (ops1 ++ ops2) = (timesteps_of ops1 + timesteps_of ops2)%Z.
Proof.
  induction ops1 as [|[obs|D|logdir n] ops1 IH]; simpl; lia.
Qed.

Lemma checkpoint_total_timestep (X : Externals) (logdir : string) (n : Z) (s : State X) :
  total_timestep (fst (checkpoint logdir n s)) = total_timestep s.
Proof.
  unfold checkpoint, bind, get, modify, ret, raise. cbn [env write_file].
  destruct (get_wrapper (env s) "VecStandardizeObservation") as [[]|]; reflexivity.
Qed.

(** One operation within the 64-bit range: the counter moves up by the
    timesteps the operation accounts for, or stays. *)
Lemma run_op_total_timestep (X : Externals) (o : Op X) (s : State X) :
  (0 <= total_timestep s)%Z ->
  (total_timestep s + timesteps_of [o] <= int64_max)%Z ->
  (total_timestep s <= total_timestep (run_op o s) <= total_timestep s + timesteps_of [o])%Z.
Proof.
  intros H0 Hmax. destruct o as [obs|D|logdir n]; simpl in *.
  - destruct (choose_action_state X obs s) as (_ & _ & _ & _ & Ht & _). lia.
  - rewrite learn_total_timestep.
    pose proof (batch_timesteps_nonneg X D).
    destruct (snd (learn D s)); [|lia].
    rewrite wrap64_in_range; [lia|]. unfold int64_min. simpl. lia.
  - rewrite checkpoint_total_timestep. lia.
Qed.

Lemma run_total_timestep (X : Externals) (ops : list (Op X)) :
  forall s : State X,
    (0 <= total_timestep s)%Z ->
    (total_timestep s + timesteps_of ops <= int64_max)%Z ->
    (total_timestep s <= total_timestep (run ops s) <= total_timestep s + timesteps_of ops)%Z.
Proof.
  induction ops as [|o ops IH]; intros s H0 Hmax; [simpl in *; lia|].
  assert (E : timesteps_of (o :: ops) = (timesteps_of [o] + timesteps_of ops)%Z)
    by apply (timesteps_of_app X [o] ops).
  rewrite E in *.
  pose proof (timesteps_of_nonneg X ops).
  pose proof (timesteps_of_nonneg X [o]).
  destruct (run_op_total_timestep X o s H0) as [A B]; [lia|].
  destruct (IH (run_op o s)) as [A' B']; [lia | lia |].
  change (run (o :: ops) s) with (run ops (run_op o s)). lia.
Qed.

(** ** The loss *)

(** C5: when [learn] returns, the loss it has backpropagated (and reports)
    is the mean, over the timesteps of the batch, of
    [policy_loss + value_coef * value_loss + entropy_coef * entropy_loss],
    with [policy_loss = - logprob * advantage], [value_loss = (V - vtarget)^2]
    and [entropy_loss = - entropy]; the log-probabilities, entropies and
    values are those of the forward pass on the observations of the batch,
    the value targets and advantages those of V-trace on every trajectory
    (the advantages standardized when the configuration says so). *)
Theorem learn_loss_is_mean_timestep_loss (X : Externals) (D : list (Trajectory X))
    (s s' : State X) (out : LearnOut) :
  learn D s = (s', Ok out) ->
  exists s1 co vAs,
    choose_action (concat (map (fun traj => removelast (numpy_observations traj)) D)) s
    = (s1, Ok co)
    /\ vtrace_all s1
         (zip5 D (map (@info_action_logprob X) D)
               (split_with_sizes (out_action_logprob co) (map (@len X) D))
               (split_with_sizes (out_V co) (map (@len X) D))
               (map (fun traj => V_head X (params s1)
                                   (feature_network X (params s1) (last_observation traj)))
                    D))
       = Ok vAs
    /\ let logprobs := out_action_logprob co in
       let entropies := out_entropy co in
       let Vs := out_V co in
       let vs := concat (map fst vAs) in
       let As := if agent_standardize_adv (config s)
                 then standardize (concat (map snd vAs))
                 else concat (map snd vAs) in
       let N := list_sum (map (@len X) D) in
       (length logprobs = N /\ length entropies = N /\ length Vs = N
        /\ length vs = N /\ length As = N)
       /\ out_loss out
          = mean (map (fun t =>
                         let policy_loss := - nth t logprobs 0 * nth t As 0 in
                         let value_loss :=
                           (nth t Vs 0 - nth t vs 0) * (nth t Vs 0 - nth t vs 0) in
                         let entropy_loss := - nth t entropies 0 in
                         policy_loss + agent_value_coef (config s) * value_loss
                         + agent_entropy_coef (config s) * entropy_loss)
                      (seq 0 N))
       /\ exists rest,
            calls s' = calls s ++ ZeroGrad :: Backward (out_loss out) :: rest
            /\ forall l, ~ In (Backward l) rest.
Proof.
  intros H.
  destruct (learn_ok X D s s' out H) as (s1 & m & Em & Eu).
  destruct (learn_metrics_ok X D s s1 m Em)
    as (St & (L1 & L2 & L3 & L4 & L5 & _) & co & vAs & Ec & M1 & M2 & M3 & Ev & M4 & M5).
  destruct St as (Hc & _ & _ & _ & Ht & Hl & _ & _ & _ & Hcalls & _).
  exists s1, co, vAs. split; [exact Ec|]. split; [exact Ev|].
  cbv zeta. rewrite <- M1, <- M2, <- M3, <- M4, <- M5.
  split; [repeat split; assumption|].
  destruct (learn_update_run X D m s1) as (pl & el & vl & U); try congruence.
  cbv zeta in U. rewrite U in Eu. rewrite Hc in Eu.
  unfold mean_timestep_loss, timestep_loss in Eu. rewrite L1 in Eu.
  destruct (agent_use_lr_scheduler (config s)); [destruct (lr_scheduler s1)|];
    inversion Eu; subst s' out; clear Eu; cbn [out_loss calls set_total_timestep add_calls set_params].
  - split; [reflexivity|].
    eexists. rewrite Hcalls, <- app_assoc. split; [reflexivity|].
    intros l [E|[E|[E|[]]]]; discriminate.
  - split; [reflexivity|].
    eexists. rewrite Hcalls. split; [reflexivity|].
    intros l [E|[E|[]]]; discriminate.
Qed.

Lemma learn_loss_is_mean_timestep_loss_witness :
  exists s' out s1 co vAs,
    learn Toy.batch Toy.agent0 = (s', Ok out)
    /\ choose_action
         (concat (map (fun traj => removelast (numpy_observations traj)) Toy.batch))
         Toy.agent0
       = (s1, Ok co)
    /\ out_loss out
       = mean (map (fun t =>
                      - nth t (out_action_logprob co) 0
                        * nth t (standardize (concat (map snd vAs))) 0
                      + 0.5 * ((nth t (out_V co) 0 - nth t (concat (map fst vAs)) 0)
                               * (nth t (out_V co) 0 - nth t (concat (map fst vAs)) 0))
                      + 0.01 * - nth t (out_entropy co) 0)
                   (seq 0 4)).
Proof.
  destruct (learn_succeeds Toy.X Toy.batch Toy.agent0 eq_refl eq_refl) as (s' & out & H).
  destruct (learn_loss_is_mean_timestep_loss Toy.X Toy.batch Toy.agent0 s' out H)
    as (s1 & co & vAs & Ec & _ & _ & E & _).
  exists s', out, s1, co, vAs. split; [exact H|]. split; [exact Ec|]. exact E.
Defined.

(** ** The scheduler step and the timestep counter *)

(** C9: when the scheduler is enabled and [learn] returns, the calls it has
    made are the optimizer calls followed by one scheduler step whose
    argument is the counter as it stood before the call, and the counter has
    taken the timesteps of the batch only after that. *)
Theorem learn_scheduler_step_before_count (X : Externals) (D : list (Trajectory X))
    (s s' : State X) (out : LearnOut) :
  learn D s = (s', Ok out) ->
  agent_use_lr_scheduler (config s) = true ->
  calls s' = calls s ++ [ZeroGrad; Backward (out_loss out);
                         ClipGradNorm (agent_max_grad_norm (config s));
                         OptimizerStep; SchedulerStep (total_timestep s)]
  /\ total_timestep s' = wrap64 (total_timestep s + batch_timesteps D)
  /\ ((0 <= total_timestep s)%Z ->
      (total_timestep s + batch_timesteps D <= int64_max)%Z ->
      total_timestep s' = (total_timestep s + batch_timesteps D)%Z).
Proof.
  intros H Hs.
  destruct (learn_ok X D s s' out H) as (s1 & m & Em & Eu).
  destruct (learn_metrics_ok X D s s1 m Em)
    as (St & (L1 & L2 & L3 & L4 & L5 & _) & _).
  destruct St as (Hc & _ & _ & _ & Ht & _ & _ & _ & _ & Hcalls & _).
  destruct (learn_update_run X D m s1) as (pl & el & vl & U); try congruence.
  cbv zeta in U. rewrite U in Eu. rewrite Hc, Hs in Eu.
  destruct (lr_scheduler s1); [|discriminate].
  inversion Eu; subst s' out; clear Eu.
  cbn [out_loss calls total_timestep set_total_timestep add_calls set_params].
  rewrite Hcalls, Ht, <- app_assoc.
  split; [reflexivity|]. split; [reflexivity|].
  intros H0 Hmax. apply wrap64_in_range.
  pose proof (batch_timesteps_nonneg X D). unfold int64_min. simpl. lia.
Qed.

Lemma learn_scheduler_step_before_count_witness :
  exists s' out,
    learn Toy.batch Toy.agent0 = (s', Ok out)
    /\ calls s' = [ZeroGrad; Backward (out_loss out); ClipGradNorm 0.5;
                   OptimizerStep; SchedulerStep 0]
    /\ total_timestep s' = 4%Z.
Proof.
  destruct (learn_succeeds Toy.X Toy.batch Toy.agent0 eq_refl eq_refl) as (s' & out & H).
  destruct (learn_scheduler_step_before_count Toy.X Toy.batch Toy.agent0 s' out H eq_refl)
    as (Hc & _ & Ht).
  exists s', out. split; [exact H|]. split; [exact Hc|].
  apply Ht;
    unfold Toy.agent0, Toy.batch, Toy.episode, batch_timesteps, int64_max, len;
    simpl; lia.
Defined.

(** C7, as amended: the counter is zero after construction.  It is a signed
    64-bit buffer: a call of [learn] that returns sets it to the old value
    plus the sum of the lengths of the trajectories of the batch in 64-bit
    wrap-around arithmetic, which is exactly that sum whenever the old value
    is not negative and the new total is at most [2^63 - 1]; a call that
    raises adds nothing; [choose_action] and [checkpoint] leave it alone.
    Along any sequence of operations whose batches keep the total at most
    [2^63 - 1], it never goes down. *)
Theorem total_timestep_counter (X : Externals) :
  (forall cfg e params0 rng0 files0 (s : State X),
      init cfg e params0 rng0 files0 = Ok s -> total_timestep s = 0%Z)
  /\ (forall D (s s' : State X) out,
        learn D s = (s', Ok out) ->
        total_timestep s'
        = wrap64 (total_timestep s + Z.of_nat (list_sum (map (@len X) D))))
  /\ (forall D (s s' : State X) out,
        learn D s = (s', Ok out) ->
        (0 <= total_timestep s)%Z ->
        (total_timestep s + Z.of_nat (list_sum (map (@len X) D)) <= int64_max)%Z ->
        total_timestep s' = (total_timestep s + Z.of_nat (list_sum (map (@len X) D)))%Z)
  /\ (forall D (s s' : State X) e,
        learn D s = (s', Raise e) -> total_timestep s' = total_timestep s)
  /\ (forall obs (s : State X),
        total_timestep (fst (choose_action obs s)) = total_timestep s)
  /\ (forall logdir n (s : State X),
        total_timestep (fst (checkpoint logdir n s)) = total_timestep s)
  /\ (forall ops1 ops2 (s : State X),
        (0 <= total_timestep s)%Z ->
        (total_timestep s + timesteps_of (ops1 ++ ops2) <= int64_max)%Z ->
        (total_timestep (run ops1 s) <= total_timestep (run (ops1 ++ ops2) s))%Z).
Proof.
  split; [|split; [|split; [|split; [|split; [|split]]]]].
  - intros cfg e params0 rng0 files0 s. unfold init.
    destruct (rev (nn_sizes cfg)); [discriminate|].
    intros H; inversion H; reflexivity.
  - intros D s s' out H.
    pose proof (learn_total_timestep X D s) as T. rewrite H in T. exact T.
  - intros D s s' out H H0 Hmax.
    pose proof (learn_total_timestep X D s) as T. rewrite H in T. simpl in T.
    rewrite T. apply wrap64_in_range.
    unfold batch_timesteps, int64_min. simpl. lia.
  - intros D s s' e H.
    pose proof (learn_total_timestep X D s) as T. rewrite H in T. exact T.
  - intros obs s. apply (choose_action_state X obs s).
  - intros logdir n s. apply checkpoint_total_timestep.
  - intros ops1 ops2 s H0 Hmax.
    rewrite timesteps_of_app in Hmax.
    pose proof (timesteps_of_nonneg X ops1). pose proof (timesteps_of_nonneg X ops2).
    destruct (run_total_timestep X ops1 s H0) as [A B]; [lia|].
    unfold run at 2. rewrite fold_left_app. fold (run ops1 s).
    fold (run ops2 (run ops1 s)).
    destruct (run_total_timestep X ops2 (run ops1 s)) as [A' B']; lia.
Qed.

Lemma total_timestep_counter_witness :
  exists s' out,
    learn Toy.batch Toy.agent0 = (s', Ok out)
    /\ total_timestep s' = 4%Z
    /\ (total_timestep (run [Learn Toy.batch] Toy.agent0)
        <= total_timestep
             (run ([Learn Toy.batch]
                   ++ [Checkpoint Toy.X "logs" 1; ChooseAction Toy.X [1%nat];
                       Learn Toy.batch])
                  Toy.agent0))%Z.
Proof.
  destruct (learn_succeeds Toy.X Toy.batch Toy.agent0 eq_refl eq_refl) as (s' & out & H).
  destruct (total_timestep_counter Toy.X) as (_ & _ & L & _ & _ & _ & M).
  exists s', out. split; [exact H|]. split.
  - rewrite (L Toy.batch Toy.agent0 s' out H); [reflexivity | |];
      unfold Toy.agent0, Toy.batch, Toy.episode, int64_max, len; simpl; lia.
  - apply M;
      unfold Toy.agent0, Toy.batch, Toy.episode, batch_timesteps, int64_max, len;
      simpl; lia.
Defined.

(** C7, as first stated, fails at the upper end of the counter: from
    [2^63 - 2] a returning call of [learn] on a batch of four timesteps
    leaves the counter at [- (2^63 - 2)], which is neither the old value
    plus four nor above the old value. *)
Lemma total_timestep_counter_counterexample :
  exists s' out,
    learn Toy.batch (set_total_timestep 9223372036854775806 Toy.agent0) = (s', Ok out)
    /\ Z.of_nat (list_sum (map (@len Toy.X) Toy.batch)) = 4%Z
    /\ total_timestep s' = (-9223372036854775806)%Z
    /\ total_timestep s' <> (9223372036854775806 + 4)%Z
    /\ (total_timestep (run [Learn Toy.batch]
                           (set_total_timestep 9223372036854775806 Toy.agent0))
        < total_timestep (set_total_timestep 9223372036854775806 Toy.agent0))%Z.
Proof.
  destruct (learn_succeeds Toy.X Toy.batch
              (set_total_timestep 9223372036854775806 Toy.agent0) eq_refl eq_refl)
    as (s' & out & H).
  pose proof (learn_total_timestep Toy.X Toy.batch
                (set_total_timestep 9223372036854775806 Toy.agent0)) as T.
  rewrite H in T. cbn [fst snd] in T.
  change (batch_timesteps Toy.batch) with 4%Z in T.
  change (total_timestep (set_total_timestep 9223372036854775806 Toy.agent0))
    with 9223372036854775806%Z in T.
  change (wrap64 (9223372036854775806 + 4)) with (-9223372036854775806)%Z in T.
  exists s', out. split; [exact H|]. split; [reflexivity|]. split; [exact T|].
  split; [rewrite T; discriminate|].
  change (run [Learn Toy.batch] (set_total_timestep 9223372036854775806 Toy.agent0))
    with (fst (learn Toy.batch (set_total_timestep 9223372036854775806 Toy.agent0))).
  rewrite H. cbn [fst]. rewrite T. reflexivity.
Qed.

(** ** A batch that [learn] accepts has two timesteps or more *)

Lemma mapM_torch_cat_nonempty {A : Type} (f : A -> list R) (l : list A)
    (l' : list (list R)) :
  mapM (fun x => torch_cat (f x)) l = Ok l' ->
  Forall (fun x => (1 <= length (f x))%nat) l.
Proof.
  revert l'. induction l as [|x l IH]; simpl; intros l' H; [constructor|].
  destruct (f x) as [|y ys] eqn:E; simpl in H; [discriminate|].
  destruct (mapM (fun x => torch_cat (f x)) l) as [r|]; [|discriminate].
  constructor; [rewrite E; simpl; lia | apply (IH r eq_refl)].
Qed.

Lemma vtrace_all_inputs (X : Externals) (s : State X) (D : list (Trajectory X)) :
  forall (lparts Vparts : list (list R)) (last_Vs : list R) vAs,
    map (@length R) lparts = map (@len X) D ->
    length Vparts = length D ->
    length last_Vs = length D ->
    vtrace_all s (zip5 D (map (@info_action_logprob X) D) lparts Vparts last_Vs) = Ok vAs ->
    Forall (fun traj => length (info_action_logprob traj) = len traj) D.
Proof.
  unfold vtrace_all.
  induction D as [|traj D IH]; intros [|lp lparts] [|V Vparts] [|lv last_Vs] vAs Hl HV HL H;
    simpl in Hl, HV, HL; try discriminate; [constructor|].
  injection Hl as Hlp Hl. injection HV as HV. injection HL as HL.
  simpl in H.
  destruct (VTrace.vtrace (info_action_logprob traj) lp (gamma s) (rewards traj) V lv
              (reach_terminal traj) (clip_rho s) (clip_pg_rho s)) as [[vt adv]|] eqn:Ev;
    [|discriminate].
  match type of H with
  | match ?m with Ok _ => _ | Raise _ => _ end = _ =>
      destruct m as [rest|] eqn:Er; [|discriminate]
  end.
  constructor; [|apply (IH lparts Vparts last_Vs rest Hl HV HL Er)].
  unfold VTrace.vtrace in Ev.
  destruct (VTrace.zip_steps (info_action_logprob traj) lp (rewards traj) V
              (reach_terminal traj)) as [steps|] eqn:Es; [|discriminate].
  destruct (VTraceFacts.zip_steps_length _ _ _ _ _ _ Es) as (L1 & L2 & _). congruence.
Qed.

Lemma learn_metrics_two_timesteps (X : Externals) (D : list (Trajectory X))
    (s s1 : State X) (m : Metrics) :
  learn_metrics D s = (s1, Ok m) -> (2 <= list_sum (map (@len X) D))%nat.
Proof.
  intros E.
  destruct (learn_metrics_ok X D s s1 m E)
    as (_ & (L1 & _ & L3 & _ & _ & Hne) & co & vAs & _ & M1 & _ & M3 & Ev & _).
  assert (Hinfo : Forall (fun traj : Trajectory X =>
                            (1 <= length (info_action_logprob traj))%nat) D
                  /\ D <> []).
  { revert E. unfold learn_metrics. rewrite !bind_lift.
    destruct (mapM _ D) as [blps|] eqn:Eb; [|discriminate].
    rewrite bind_lift.
    destruct (np_concatenate _) as [obs|] eqn:Eo; [|discriminate]. intros _.
    split; [exact (mapM_torch_cat_nonempty _ _ _ Eb)|].
    intros ->. discriminate. }
  destruct Hinfo as [Hinfo HD].
  apply vtrace_all_inputs in Ev.
  - assert (P : (1 <= list_sum (map (@len X) D))%nat).
    { destruct D as [|traj D]; [contradiction|].
      inversion Hinfo; subst. inversion Ev; subst. simpl. lia. }
    cbv zeta in Hne. lia.
  - apply split_with_sizes_spec. cbv zeta in L1. congruence.
  - assert (SV : list_sum (map (@len X) D) = length (out_V co)).
    { rewrite <- M3. symmetry. exact L3. }
    rewrite <- (length_map (@length R)), (proj2 (split_with_sizes_spec _ _ SV)).
    apply length_map.
  - apply length_map.
Qed.

(** ** Standardized advantages *)

Lemma std_nonneg (As : list R) : 0 <= std As.
Proof. unfold std. apply sqrt_pos. Qed.

Lemma sum_const (a : R) (l : list R) :
  (forall x, In x l -> x = a) -> Tensor.sum l = INR (length l) * a.
Proof.
  induction l as [|x l IH]; intros H.
  - simpl. ring.
  - change (Tensor.sum (x :: l)) with (x + Tensor.sum l).
    rewrite IH by (intros y Hy; apply H; right; exact Hy).
    rewrite (H x (or_introl eq_refl)).
    cbn [length]. rewrite S_INR. ring.
Qed.

Lemma mean_const (a : R) (l : list R) :
  l <> [] -> (forall x, In x l -> x = a) -> mean l = a.
Proof.
  intros Hne H. unfold mean. rewrite (sum_const a l H).
  assert (INR (length l) <> 0).
  { apply not_0_INR. destruct l; [contradiction | discriminate]. }
  field. assumption.
Qed.

(** C6: the divisor of the standardization, the standard deviation of the
    batch plus [1e-8], is positive for every batch, so the transformation
    is defined on every batch: each advantage has the batch mean subtracted
    and is divided by that divisor; a batch of zero variance becomes all
    zeros.  With standardization enabled, the advantages that enter the loss
    of [learn] are the V-trace advantages transformed so. *)
Theorem standardize_total (X : Externals) :
  (forall As : list R, 0 < std As + 1e-8)
  /\ (forall As : list R,
        length (standardize As) = length As
        /\ forall t, (t < length As)%nat ->
             nth t (standardize As) 0 = (nth t As 0 - mean As) / (std As + 1e-8))
  /\ (forall (a : R) (As : list R),
        As <> [] -> (forall x, In x As -> x = a) ->
        forall y, In y (standardize As) -> y = 0)
  /\ (forall (D : list (Trajectory X)) (s s' : State X) (out : LearnOut),
        learn D s = (s', Ok out) ->
        agent_standardize_adv (config s) = true ->
        exists s1 co vAs m,
          choose_action (concat (map (fun traj => removelast (numpy_observations traj)) D)) s
          = (s1, Ok co)
          /\ vtrace_all s1
               (zip5 D (map (@info_action_logprob X) D)
                     (split_with_sizes (out_action_logprob co) (map (@len X) D))
                     (split_with_sizes (out_V co) (map (@len X) D))
                     (map (fun traj => V_head X (params s1)
                                         (feature_network X (params s1)
                                                          (last_observation traj)))
                          D))
             = Ok vAs
          /\ (2 <= length (concat (map snd vAs)))%nat
          /\ learn_metrics D s = (s1, Ok m)
          /\ m_As m = standardize (concat (map snd vAs))
          /\ learn_update D m s1 = (s', Ok out)).
Proof.
  split; [|split; [|split]].
  - intros As. pose proof (std_nonneg As). lra.
  - intros As. unfold standardize. split; [apply length_map|].
    intros t Ht. rewrite (nth_map_lt _ _ 0) by exact Ht. reflexivity.
  - intros a As Hne Hall y Hy. unfold standardize in Hy.
    apply in_map_iff in Hy. destruct Hy as (x & <- & Hx).
    rewrite (mean_const a As Hne Hall), (Hall x Hx).
    unfold Rdiv. replace (a - a) with 0 by ring. apply Rmult_0_l.
  - intros D s s' out H Hstd.
    destruct (learn_ok X D s s' out H) as (s1 & m & Em & Eu).
    destruct (learn_metrics_ok X D s s1 m Em)
      as (_ & (_ & _ & _ & _ & L5 & _) & co & vAs & Ec & _ & _ & _ & Ev & _ & M5).
    rewrite Hstd in M5.
    exists s1, co, vAs, m. split; [exact Ec|]. split; [exact Ev|].
    split; [|split; [exact Em | split; [exact M5 | exact Eu]]].
    rewrite M5 in L5. unfold standardize in L5. rewrite length_map in L5.
    pose proof (learn_metrics_two_timesteps X D s s1 m Em). cbv zeta in L5. lia.
Qed.



Lemma standardize_total_witness :
  (forall y, In y (standardize [1; 1; 1]) -> y = 0)
  /\ exists s' out s1 co (vAs : list (list R * list R)) m,
       learn Toy.batch Toy.agent0 = (s', Ok out)
       /\ choose_action
            (concat (map (fun traj => removelast (numpy_observations traj)) Toy.batch))
            Toy.agent0
          = (s1, Ok co)
       /\ (2 <= length (concat (map snd vAs)))%nat
       /\ learn_metrics Toy.batch Toy.agent0 = (s1, Ok m)
       /\ m_As m = standardize (concat (map snd vAs)).
Proof.
  destruct (standardize_total Toy.X) as (_ & _ & Z & L).
  split.
  - apply (Z 1 [1; 1; 1]); [discriminate|].
    simpl. intros x [E|[E|[E|[]]]]; symmetry; exact E.
  - destruct (learn_succeeds Toy.X Toy.batch Toy.agent0 eq_refl eq_refl) as (s' & out & H).
    destruct (L Toy.batch Toy.agent0 s' out H eq_refl)
      as (s1 & co & vAs & m & Ec & _ & H2 & Em & EA & _).
    exists s', out, s1, co, vAs, m. auto.
Defined.

End AgentFacts.

(** * Further properties of the agent *)

Module AgentExtras.
Import Monad Monad.Notations Tensor Env Agent AgentFacts.
Local Open Scope R_scope.

(** ** The outcome of [learn], attribute by attribute *)

(** The second half of [learn] with the loss components spelled out. *)
Lemma learn_update_terms (X : Externals) (D : list (Trajectory X)) (m : Metrics)
    (s : State X) :
  length (m_entropies m) = length (m_logprobs m) ->
  length (m_Vs m) = length (m_logprobs m) ->
  length (m_vs m) = length (m_logprobs m) ->
  length (m_As m) = length (m_logprobs m) ->
  let N := length (m_logprobs m) in
  let policy_loss := map (fun i => - nth i (m_logprobs m) 0 * nth i (m_As m) 0) (seq 0 N) in
  let entropy_loss := map Ropp (m_entropies m) in
  let value_loss :=
    map (fun i => (nth i (m_Vs m) 0 - nth i (m_vs m) 0)
                  * (nth i (m_Vs m) 0 - nth i (m_vs m) 0)) (seq 0 N) in
  let loss := mean_timestep_loss (config s) (m_logprobs m) (m_entropies m) (m_Vs m)
                                 (m_vs m) (m_As m) in
  let max_norm := agent_max_grad_norm (config s) in
  let pg := backward_clip_step X (params s) loss max_norm in
  let s2 := set_params (fst pg)
              (add_calls [ZeroGrad; Backward loss; ClipGradNorm max_norm; OptimizerStep] s) in
  let count := wrap64 (total_timestep s + batch_timesteps D) in
  let out := {| out_loss := loss;
                out_grad_norm := snd pg;
                out_policy_loss := mean policy_loss;
                out_entropy_loss := mean entropy_loss;
                out_policy_entropy := - mean entropy_loss;
                out_value_loss := mean value_loss |} in
  learn_update D m s
  = if agent_use_lr_scheduler (config s)
    then if lr_scheduler s
         then (set_total_timestep count
                 (add_calls [SchedulerStep (total_timestep s)] s2), Ok out)
         else (s2, Raise AttributeError)
    else (set_total_timestep count s2, Ok out).
Proof.
  intros He HV Hv HA.
  destruct (loss_terms_same_length (config s) _ _ _ _ _ He HV Hv HA)
    as (pl & el & vl & lt & E & Epl & Eel & Evl & Elt).
  cbv zeta. subst pl el vl.
  unfold learn_update. rewrite bind_get, bind_lift, E.
  unfold mean_timestep_loss. rewrite <- Elt.
  destruct (backward_clip_step X (params s) (mean lt) (agent_max_grad_norm (config s)))
    as [params' grad_norm].
  unfold bind, modify, ret, raise, get, batch_timesteps. cbn [fst snd].
  destruct (agent_use_lr_scheduler (config s)); [|reflexivity].
  cbn [lr_scheduler set_params add_calls].
  destruct (lr_scheduler s); reflexivity.
Qed.

(** A call of [learn] that returns, spelled out: the metrics of the first
    half, then the state and the report the second half builds from them. *)
Lemma learn_returns_inv (X : Externals) (D : list (Trajectory X)) (s s' : State X)
    (out : LearnOut) :
  learn D s = (s', Ok out) ->
  exists s1 m,
    learn_metrics D s = (s1, Ok m)
    /\ same_but_rng s s1
    /\ (length (m_logprobs m) = list_sum (map (@len X) D)
        /\ length (m_entropies m) = length (m_logprobs m)
        /\ length (m_Vs m) = length (m_logprobs m)
        /\ length (m_vs m) = length (m_logprobs m)
        /\ length (m_As m) = length (m_logprobs m)
        /\ (2 <= length (m_logprobs m))%nat)
    /\ let N := length (m_logprobs m) in
       let policy_loss :=
         map (fun i => - nth i (m_logprobs m) 0 * nth i (m_As m) 0) (seq 0 N) in
       let entropy_loss := map Ropp (m_entropies m) in
       let value_loss :=
         map (fun i => (nth i (m_Vs m) 0 - nth i (m_vs m) 0)
                       * (nth i (m_Vs m) 0 - nth i (m_vs m) 0)) (seq 0 N) in
       let loss := mean_timestep_loss (config s) (m_logprobs m) (m_entropies m) (m_Vs m)
                                      (m_vs m) (m_As m) in
       let max_norm := agent_max_grad_norm (config s) in
       let pg := backward_clip_step X (params s) loss max_norm in
       let s2 := set_params (fst pg)
                   (add_calls [ZeroGrad; Backward loss; ClipGradNorm max_norm;
                               OptimizerStep] s1) in
       let count := wrap64 (total_timestep s + batch_timesteps D) in
       out = {| out_loss := loss;
                out_grad_norm := snd pg;
                out_policy_loss := mean policy_loss;
                out_entropy_loss := mean entropy_loss;
                out_policy_entropy := - mean entropy_loss;
                out_value_loss := mean value_loss |}
       /\ s' = set_total_timestep count
                 (if agent_use_lr_scheduler (config s)
                  then add_calls [SchedulerStep (total_timestep s)] s2
                  else s2)
       /\ (agent_use_lr_scheduler (config s) = true -> lr_scheduler s = true).
Proof.
  intros H.
  destruct (learn_ok X D s s' out H) as (s1 & m & Em & Eu).
  pose proof (learn_metrics_two_timesteps X D s s1 m Em) as H2.
  destruct (learn_metrics_ok X D s s1 m Em)
    as (St & (L1 & L2 & L3 & L4 & L5 & _) & _).
  cbv zeta in L1, L2, L3, L4, L5.
  exists s1, m. split; [exact Em|]. split; [exact St|].
  split; [repeat split; congruence || lia|].
  destruct St as (Hc & _ & Hp & _ & Ht & Hl & _).
  pose proof (learn_update_terms X D m s1) as U.
  cbv zeta in U. rewrite U in Eu by congruence. clear U.
  rewrite Hc, Hp, Ht, Hl in Eu. cbv zeta.
  destruct (agent_use_lr_scheduler (config s)).
  - destruct (lr_scheduler s); [|discriminate].
    inversion Eu. auto.
  - inversion Eu. split; [reflexivity|]. split; [reflexivity|]. discriminate.
Qed.

(** A call of [learn] that raises: either nothing but the random generator
    has moved, or the optimizer has stepped and the scheduler the
    configuration asks for was never created. *)
Lemma learn_raises_inv (X : Externals) (D : list (Trajectory X)) (s s' : State X)
    (e : exn) :
  learn D s = (s', Raise e) ->
  same_but_rng s s'
  \/ (agent_use_lr_scheduler (config s) = true /\ lr_scheduler s = false
      /\ e = AttributeError).
Proof.
  unfold learn, bind. intros H.
  pose proof (learn_metrics_state X D s) as St.
  destruct (learn_metrics D s) as [s1 [m|e1]] eqn:Em; simpl in St.
  - destruct (learn_metrics_ok X D s s1 m Em) as (_ & (L1 & L2 & L3 & L4 & L5 & _) & _).
    cbv zeta in L1, L2, L3, L4, L5.
    pose proof (learn_update_terms X D m s1) as U.
    cbv zeta in U. rewrite U in H by congruence. clear U.
    destruct St as (Hc & _ & _ & _ & _ & Hl & _).
    rewrite Hc, Hl in H.
    destruct (agent_use_lr_scheduler (config s)); [|discriminate].
    destruct (lr_scheduler s); [discriminate|].
    inversion H. right. auto.
  - inversion H; subst. left. exact St.
Qed.

(** What no call of [learn] changes, whatever its outcome. *)
Lemma learn_frame (X : Externals) (D : list (Trajectory X)) (s : State X) :
  let s' := fst (learn D s) in
  config s' = config s /\ env s' = env s /\ action_head s' = action_head s
  /\ lr_scheduler s' = lr_scheduler s /\ gamma s' = gamma s
  /\ clip_rho s' = clip_rho s /\ clip_pg_rho s' = clip_pg_rho s
  /\ files s' = files s
  /\ exists cs, calls s' = calls s ++ cs.
Proof.
  cbv zeta. unfold learn, bind.
  pose proof (learn_metrics_state X D s) as St.
  destruct (learn_metrics D s) as [s1 [m|e1]] eqn:Em; simpl in St.
  - destruct (learn_metrics_ok X D s s1 m Em) as (_ & (L1 & L2 & L3 & L4 & L5 & _) & _).
    cbv zeta in L1, L2, L3, L4, L5.
    pose proof (learn_update_terms X D m s1) as U.
    cbv zeta in U. rewrite U by congruence. clear U.
    destruct St as (Hc & He & _ & Hh & _ & Hl & Hg & Hr & Hp & Hcalls & Hf).
    rewrite Hc, Hl.
    destruct (agent_use_lr_scheduler (config s)); [destruct (lr_scheduler s)|];
      cbn [fst config env action_head lr_scheduler gamma clip_rho clip_pg_rho files calls
           set_total_timestep add_calls set_params];
      rewrite ?Hcalls, <- ?app_assoc; repeat split; try assumption; eexists; reflexivity.
  - cbn [fst]. destruct St as (Hc & He & _ & Hh & _ & Hl & Hg & Hr & Hp & Hcalls & Hf).
    repeat split; try assumption. exists []. rewrite app_nil_r. exact Hcalls.
Qed.

Lemma checkpoint_frame (X : Externals) (logdir : string) (n : Z) (s : State X) :
  let s' := fst (checkpoint logdir n s) in
  config s' = config s /\ env s' = env s /\ params s' = params s
  /\ action_head s' = action_head s /\ total_timestep s' = total_timestep s
  /\ lr_scheduler s' = lr_scheduler s /\ gamma s' = gamma s
  /\ clip_rho s' = clip_rho s /\ clip_pg_rho s' = clip_pg_rho s
  /\ rng s' = rng s /\ calls s' = calls s
  /\ exists fs, files s' = fs ++ files s.
Proof.
  cbv zeta. unfold checkpoint, bind, get, modify, ret, raise. cbn [env write_file].
  destruct (get_wrapper (env s) "VecStandardizeObservation") as [[]|];
    cbn [fst config env params action_head total_timestep lr_scheduler gamma clip_rho
         clip_pg_rho rng calls files write_file];
    repeat (split; [reflexivity|]);
    first [eexists [_]; reflexivity | eexists [_; _]; reflexivity].
Qed.

(** One operation keeps the configuration, the environment, the head, the
    hyperparameters and the scheduler attribute, and only adds to the calls
    and to the files. *)
Lemma run_op_frame (X : Externals) (o : Op X) (s : State X) :
  let s' := run_op o s in
  config s' = config s /\ env s' = env s /\ action_head s' = action_head s
  /\ lr_scheduler s' = lr_scheduler s /\ gamma s' = gamma s
  /\ clip_rho s' = clip_rho s /\ clip_pg_rho s' = clip_pg_rho s
  /\ (exists cs, calls s' = calls s ++ cs)
  /\ (exists fs, files s' = fs ++ files s).
Proof.
  cbv zeta. destruct o as [obs|D|logdir n]; simpl.
  - destruct (choose_action_state X obs s)
      as (Hc & He & _ & Hh & _ & Hl & Hg & Hr & Hp & Hcalls & Hf).
    repeat split; try assumption.
    + exists []. rewrite app_nil_r. exact Hcalls.
    + exists []. exact Hf.
  - destruct (learn_frame X D s) as (Hc & He & Hh & Hl & Hg & Hr & Hp & Hf & Hcalls).
    repeat split; try assumption. exists []. exact Hf.
  - destruct (checkpoint_frame X logdir n s)
      as (Hc & He & _ & Hh & _ & Hl & Hg & Hr & Hp & _ & Hcalls & Hf).
    repeat split; try assumption. exists []. rewrite app_nil_r. exact Hcalls.
Qed.

Lemma ready_frame (X : Externals) (s s' : State X) :
  config s' = config s -> action_head s' = action_head s ->
  lr_scheduler s' = lr_scheduler s -> ready s' = ready s.
Proof. unfold ready. intros -> -> ->. reflexivity. Qed.

Lemma run_cons (X : Externals) (o : Op X) (ops : list (Op X)) (s : State X) :
  run (o :: ops) s = run ops (run_op o s).
Proof. reflexivity. Qed.

Lemma run_ready (X : Externals) (ops : list (Op X)) :
  forall s : State X, ready (run ops s) = ready s.
Proof.
  induction ops as [|o ops IH]; intros s; [reflexivity|].
  rewrite run_cons, IH.
  destruct (run_op_frame X o s) as (Hc & _ & Hh & Hl & _).
  apply ready_frame; assumption.
Qed.

(** ** Calls of [learn] that return *)

(** X1: an agent with its head (and its scheduler, when the configuration
    asks for one) returns from [learn] on every well-formed batch, and does
    so after any sequence of earlier operations, whether they returned or
    raised. *)
Theorem learn_returns_after_any_operations (X : Externals) (s : State X)
    (ops : list (Op X)) (D : list (Trajectory X)) :
  ready s = true ->
  well_formed_batch D = true ->
  exists s' out, learn D (run ops s) = (s', Ok out) /\ ready s' = true.
Proof.
  intros Hr HD.
  assert (Hr' : ready (run ops s) = true) by (rewrite run_ready; exact Hr).
  destruct (learn_succeeds X D (run ops s) HD Hr') as (s' & out & H).
  exists s', out. split; [exact H|].
  destruct (learn_frame X D (run ops s)) as (Hc & _ & Hh & Hl & _).
  rewrite H in Hc, Hh, Hl. cbn [fst] in Hc, Hh, Hl.
  rewrite (ready_frame X _ _ Hc Hh Hl). exact Hr'.
Qed.

Lemma learn_returns_after_any_operations_witness :
  exists s' out,
    learn Toy.batch
          (run [Learn Toy.batch; Learn []; Checkpoint Toy.X "logs" 1;
                ChooseAction Toy.X [1%nat]] Toy.agent0)
    = (s', Ok out)
    /\ ready s' = true.
Proof.
  apply (learn_returns_after_any_operations Toy.X Toy.agent0
           [Learn Toy.batch; Learn []; Checkpoint Toy.X "logs" 1;
            ChooseAction Toy.X [1%nat]] Toy.batch); reflexivity.
Defined.

(** X2: a freshly constructed agent on a [Discrete] or [Box] action space
    returns from [learn] on every well-formed batch, and its counter is then
    the number of timesteps of the batch. *)
Theorem init_then_learn (X : Externals) (cfg : Config) (e : Env)
    (params0 : Params X) (rng0 : Rng X) (files0 : list (string * File X))
    (D : list (Trajectory X)) :
  nn_sizes cfg <> [] ->
  ((exists n, action_space e = Discrete n) \/ (exists shape, action_space e = Box shape)) ->
  well_formed_batch D = true ->
  (Z.of_nat (list_sum (map (@len X) D)) <= int64_max)%Z ->
  exists s s' out,
    init cfg e params0 rng0 files0 = Ok s
    /\ learn D s = (s', Ok out)
    /\ total_timestep s' = Z.of_nat (list_sum (map (@len X) D)).
Proof.
  intros Hs Ha HD Hmax. unfold init.
  destruct (rev (nn_sizes cfg)) as [|feature_dim rest] eqn:E.
  { apply (f_equal (@rev nat)) in E. rewrite rev_involutive in E. contradiction. }
  eexists. 
  match goal with
  | |- exists s' out, Ok ?s0 = Ok _ /\ _ => set (s := s0)
  end.
  assert (Hr : ready s = true).
  { unfold ready, s. cbn [action_head config lr_scheduler].
    destruct Ha as [[n ->]|[shape ->]];
      destruct (agent_use_lr_scheduler cfg); reflexivity. }
  destruct (learn_succeeds X D s HD Hr) as (s' & out & H).
  exists s', out. split; [reflexivity|]. split; [exact H|].
  pose proof (learn_total_timestep X D s) as T. rewrite H in T. cbn [fst snd] in T.
  rewrite T. unfold s at 1. cbn [total_timestep].
  rewrite wrap64_in_range; [reflexivity|].
  unfold batch_timesteps, int64_min. simpl. lia.
Qed.

Lemma init_then_learn_witness :
  exists s s' out,
    @init Toy.X Toy.cfg Toy.cartpole 0%nat 0%nat [] = Ok s
    /\ learn Toy.batch s = (s', Ok out)
    /\ total_timestep s' = 4%Z.
Proof.
  apply (init_then_learn Toy.X Toy.cfg Toy.cartpole 0%nat 0%nat [] Toy.batch).
  - discriminate.
  - left. exists 2%nat. reflexivity.
  - reflexivity.
  - unfold int64_max, Toy.batch, Toy.episode, len. simpl. lia.
Defined.

(** X3: [learn] returns only on a batch that is not empty, whose every
    trajectory carries at least one behaviour log-probability, whose
    observations acted on are as many as its timesteps, and whose timesteps
    are not exactly one; and only on an agent that has its head. *)
Theorem learn_returns_only_on (X : Externals) (D : list (Trajectory X))
    (s s' : State X) (out : LearnOut) :
  learn D s = (s', Ok out) ->
  D <> []
  /\ Forall (fun traj => (1 <= length (info_action_logprob traj))%nat) D
  /\ list_sum (map (fun traj => length (observations traj)) D)
     = list_sum (map (@len X) D)
  /\ list_sum (map (@len X) D) <> 1%nat
  /\ action_head s <> None.
Proof.
  intros H.
  destruct (learn_ok X D s s' out H) as (s1 & m & Em & _).
  destruct (learn_metrics_ok X D s s1 m Em)
    as (_ & (L1 & _ & _ & _ & _ & Hne) & co & vAs & Ec & M1 & _).
  cbv zeta in L1, Hne.
  assert (Hinfo : Forall (fun traj : Trajectory X =>
                            (1 <= length (info_action_logprob traj))%nat) D
                  /\ D <> []).
  { revert Em. unfold learn_metrics. rewrite !bind_lift.
    destruct (mapM _ D) as [blps|] eqn:Eb; [|discriminate].
    rewrite bind_lift.
    destruct (np_concatenate _) as [obs|] eqn:Eo; [|discriminate]. intros _.
    split; [exact (mapM_torch_cat_nonempty _ _ _ Eb)|].
    intros ->. discriminate. }
  destruct Hinfo as [Hinfo HD].
  split; [exact HD|]. split; [exact Hinfo|].
  destruct (choose_action_cases X
              (concat (map (fun traj => removelast (numpy_observations traj)) D)) s)
    as [[_ Ec']|(h & co' & g & Hh & Ec' & Lc & _)]; rewrite Ec' in Ec; [discriminate|].
  inversion Ec; subst co'.
  split; [|split; [exact Hne | congruence]].
  rewrite <- L1, M1, Lc, length_concat_sum, map_map. f_equal.
  apply map_ext. intros traj. unfold numpy_observations. rewrite removelast_last.
  reflexivity.
Qed.

Lemma learn_returns_only_on_witness :
  exists s' out,
    learn Toy.batch Toy.agent0 = (s', Ok out)
    /\ list_sum (map (fun traj => length (observations traj)) Toy.batch) = 4%nat.
Proof.
  destruct (learn_succeeds Toy.X Toy.batch Toy.agent0 eq_refl eq_refl) as (s' & out & H).
  exists s', out. split; [exact H|].
  destruct (learn_returns_only_on Toy.X Toy.batch Toy.agent0 s' out H)
    as (_ & _ & E & _).
  exact E.
Defined.

(** ** Calls of [learn] that raise *)

(** X4: on an agent with its head and its scheduler, a call of [learn] that
    raises has raised before the optimizer was touched: the parameters, the
    counter, the calls made and the files are what they were; only the
    random generator may have moved. *)
Theorem learn_failure_leaves_model (X : Externals) (D : list (Trajectory X))
    (s s' : State X) (e : exn) :
  ready s = true ->
  learn D s = (s', Raise e) ->
  params s' = params s /\ total_timestep s' = total_timestep s
  /\ calls s' = calls s /\ files s' = files s /\ config s' = config s.
Proof.
  intros Hr H.
  destruct (learn_raises_inv X D s s' e H)
    as [(Hc & _ & Hp & _ & Ht & _ & _ & _ & _ & Hcalls & Hf) | (Hs & Hl & _)].
  - auto.
  - unfold ready in Hr. rewrite Hs, Hl in Hr.
    destruct (action_head s); discriminate.
Qed.

Lemma learn_failure_leaves_model_witness :
  params (fst (learn [] Toy.agent0)) = params Toy.agent0
  /\ total_timestep (fst (learn [] Toy.agent0)) = total_timestep Toy.agent0
  /\ calls (fst (learn [] Toy.agent0)) = calls Toy.agent0
  /\ files (fst (learn [] Toy.agent0)) = files Toy.agent0
  /\ config (fst (learn [] Toy.agent0)) = config Toy.agent0.
Proof.
  apply (learn_failure_leaves_model Toy.X [] Toy.agent0
           (fst (learn [] Toy.agent0)) ValueError); reflexivity.
Defined.

(** ** The optimizer and the scheduler *)

(** X5: a call of [learn] that returns has made exactly one round of
    optimizer calls, in the order zero_grad, backward on the reported loss,
    clip_grad_norm_ at the configured maximum, step; a scheduler step follows
    exactly when the configuration enables the scheduler.  The parameters are
    those the optimizer produced and the reported gradient norm is the one
    the clipping returned. *)
Theorem learn_optimizer_round (X : Externals) (D : list (Trajectory X))
    (s s' : State X) (out : LearnOut) :
  learn D s = (s', Ok out) ->
  let max_norm := agent_max_grad_norm (config s) in
  calls s' = calls s
             ++ [ZeroGrad; Backward (out_loss out); ClipGradNorm max_norm; OptimizerStep]
             ++ (if agent_use_lr_scheduler (config s)
                 then [SchedulerStep (total_timestep s)]
                 else [])
  /\ params s' = fst (backward_clip_step X (params s) (out_loss out) max_norm)
  /\ out_grad_norm out = snd (backward_clip_step X (params s) (out_loss out) max_norm).
Proof.
  intros H.
  destruct (learn_returns_inv X D s s' out H)
    as (s1 & m & _ & St & _ & Eout & Es & _).
  cbv zeta in Eout, Es |- *.
  destruct St as (_ & _ & _ & _ & _ & _ & _ & _ & _ & Hcalls & _).
  subst out s'. cbn [out_loss out_grad_norm].
  destruct (agent_use_lr_scheduler (config s));
    cbn [calls params set_total_timestep add_calls set_params];
    rewrite Hcalls, <- ?app_assoc; repeat split; reflexivity.
Qed.

Lemma learn_optimizer_round_witness :
  exists s' out,
    learn Toy.batch Toy.agent0 = (s', Ok out)
    /\ params s' = 1%nat
    /\ out_grad_norm out = 0.
Proof.
  destruct (learn_succeeds Toy.X Toy.batch Toy.agent0 eq_refl eq_refl) as (s' & out & H).
  destruct (learn_optimizer_round Toy.X Toy.batch Toy.agent0 s' out H) as (_ & Hp & Hg).
  exists s', out. split; [exact H|]. split; [exact Hp | exact Hg].
Defined.

Lemma learn_returns_effects (X : Externals) (D : list (Trajectory X))
    (s s' : State X) (out : LearnOut) :
  learn D s = (s', Ok out) ->
  config s' = config s
  /\ total_timestep s' = wrap64 (total_timestep s + batch_timesteps D)
  /\ calls s' = calls s
                ++ [ZeroGrad; Backward (out_loss out);
                    ClipGradNorm (agent_max_grad_norm (config s)); OptimizerStep]
                ++ (if agent_use_lr_scheduler (config s)
                    then [SchedulerStep (total_timestep s)]
                    else []).
Proof.
  intros H.
  destruct (learn_returns_inv X D s s' out H)
    as (s1 & m & _ & St & _ & Eout & Es & _).
  cbv zeta in Eout, Es.
  destruct St as (Hc & _ & _ & _ & _ & _ & _ & _ & _ & Hcalls & _).
  subst out s'. cbn [out_loss].
  destruct (agent_use_lr_scheduler (config s));
    cbn [config calls total_timestep set_total_timestep add_calls set_params];
    rewrite Hcalls, <- ?app_assoc; repeat split; assumption || reflexivity.
Qed.

(** X6: over two calls of [learn] in a row that return, with the scheduler
    enabled, the scheduler is stepped with the counter before the first
    batch and then with the counter the first call left: the old counter
    plus the timesteps of the first batch in the 64-bit arithmetic of the
    buffer, which is exactly that sum while it stays within the range.  The
    schedule lags the data by one batch. *)
Theorem consecutive_learns_scheduler_epochs (X : Externals)
    (D1 D2 : list (Trajectory X)) (s s1 s2 : State X) (out1 out2 : LearnOut) :
  learn D1 s = (s1, Ok out1) ->
  learn D2 s1 = (s2, Ok out2) ->
  agent_use_lr_scheduler (config s) = true ->
  let max_norm := agent_max_grad_norm (config s) in
  let n1 := Z.of_nat (list_sum (map (@len X) D1)) in
  calls s2
  = calls s
    ++ [ZeroGrad; Backward (out_loss out1); ClipGradNorm max_norm; OptimizerStep;
        SchedulerStep (total_timestep s);
        ZeroGrad; Backward (out_loss out2); ClipGradNorm max_norm; OptimizerStep;
        SchedulerStep (wrap64 (total_timestep s + n1))]
  /\ total_timestep s1 = wrap64 (total_timestep s + n1)
  /\ ((0 <= total_timestep s)%Z -> (total_timestep s + n1 <= int64_max)%Z ->
      wrap64 (total_timestep s + n1) = (total_timestep s + n1)%Z).
Proof.
  intros H1 H2 Hs. cbv zeta.
  destruct (learn_returns_effects X D1 s s1 out1 H1) as (Hc1 & Ht1 & Hcalls1).
  destruct (learn_returns_effects X D2 s1 s2 out2 H2) as (_ & _ & Hcalls2).
  split; [|split; [exact Ht1|]].
  - rewrite Hcalls2, Hcalls1, Hc1, Hs, Ht1, <- !app_assoc. reflexivity.
  - intros H0 Hmax. apply wrap64_in_range. unfold int64_min. simpl. lia.
Qed.

Lemma consecutive_learns_scheduler_epochs_witness :
  exists s1 s2 out1 out2,
    learn Toy.batch Toy.agent0 = (s1, Ok out1)
    /\ learn Toy.batch s1 = (s2, Ok out2)
    /\ calls s2
       = [ZeroGrad; Backward (out_loss out1); ClipGradNorm 0.5; OptimizerStep;
          SchedulerStep 0;
          ZeroGrad; Backward (out_loss out2); ClipGradNorm 0.5; OptimizerStep;
          SchedulerStep 4].
Proof.
  destruct (learn_succeeds Toy.X Toy.batch Toy.agent0 eq_refl eq_refl) as (s1 & out1 & H1).
  assert (Hr : ready s1 = true).
  { destruct (learn_frame Toy.X Toy.batch Toy.agent0) as (Hc & _ & Hh & Hl & _).
    rewrite H1 in Hc, Hh, Hl. cbn [fst] in Hc, Hh, Hl.
    rewrite (ready_frame Toy.X _ _ Hc Hh Hl). reflexivity. }
  destruct (learn_succeeds Toy.X Toy.batch s1 eq_refl Hr) as (s2 & out2 & H2).
  exists s1, s2, out1, out2. split; [exact H1|]. split; [exact H2|].
  exact (proj1 (consecutive_learns_scheduler_epochs Toy.X Toy.batch Toy.batch Toy.agent0
                  s1 s2 out1 out2 H1 H2 eq_refl)).
Defined.

(** ** The report *)

Lemma sum_map_plus {A : Type} (f g : A -> R) (l : list A) :
  Tensor.sum (map (fun i => f i + g i) l) = Tensor.sum (map f l) + Tensor.sum (map g l).
Proof.
  induction l as [|x l IH]; simpl; [ring|].
  unfold Tensor.sum in *. simpl. rewrite IH. ring.
Qed.

Lemma sum_map_scale {A : Type} (k : R) (f : A -> R) (l : list A) :
  Tensor.sum (map (fun i => k * f i) l) = k * Tensor.sum (map f l).
Proof.
  induction l as [|x l IH]; simpl; [unfold Tensor.sum; simpl; ring|].
  unfold Tensor.sum in *. simpl. rewrite IH. ring.
Qed.

Lemma sum_nonneg (l : list R) : (forall x, In x l -> 0 <= x) -> 0 <= Tensor.sum l.
Proof.
  induction l as [|x l IH]; intros H; unfold Tensor.sum in *; simpl; [lra|].
  pose proof (H x (or_introl eq_refl)).
  assert (0 <= fold_right Rplus 0 l) by (apply IH; intros y Hy; apply H; right; exact Hy).
  lra.
Qed.

Lemma map_as_seq {A B : Type} (f : A -> B) (d : A) (l : list A) :
  map f l = map (fun i => f (nth i l d)) (seq 0 (length l)).
Proof.
  apply (nth_ext _ _ (f d) (f d)).
  - rewrite !length_map, length_seq. reflexivity.
  - intros i Hi. rewrite length_map in Hi.
    rewrite map_nth.
    rewrite (nth_indep _ (f d) ((fun i => f (nth i l d)) 0%nat))
      by (rewrite length_map, length_seq; exact Hi).
    rewrite (map_nth (fun i => f (nth i l d))).
    rewrite seq_nth by exact Hi. reflexivity.
Qed.

(** X7: the loss that [learn] reports is the reported policy loss plus the
    value coefficient times the reported value loss plus the entropy
    coefficient times the reported entropy loss. *)
Theorem report_loss_decomposition (X : Externals) (D : list (Trajectory X))
    (s s' : State X) (out : LearnOut) :
  learn D s = (s', Ok out) ->
  out_loss out
  = out_policy_loss out
    + agent_value_coef (config s) * out_value_loss out
    + agent_entropy_coef (config s) * out_entropy_loss out.
Proof.
  intros H.
  destruct (learn_returns_inv X D s s' out H)
    as (s1 & m & _ & _ & (_ & L2 & _) & Eout & _).
  cbv zeta in Eout. subst out.
  cbn [out_loss out_policy_loss out_value_loss out_entropy_loss].
  rewrite (map_as_seq Ropp 0 (m_entropies m)), L2.
  unfold mean_timestep_loss, timestep_loss, mean.
  rewrite !length_map, length_seq.
  rewrite (sum_map_plus
             (fun i => - nth i (m_logprobs m) 0 * nth i (m_As m) 0
                       + agent_value_coef (config s)
                         * ((nth i (m_Vs m) 0 - nth i (m_vs m) 0)
                            * (nth i (m_Vs m) 0 - nth i (m_vs m) 0)))
             (fun i => agent_entropy_coef (config s) * - nth i (m_entropies m) 0)).
  rewrite (sum_map_plus
             (fun i => - nth i (m_logprobs m) 0 * nth i (m_As m) 0)
             (fun i => agent_value_coef (config s)
                       * ((nth i (m_Vs m) 0 - nth i (m_vs m) 0)
                          * (nth i (m_Vs m) 0 - nth i (m_vs m) 0)))).
  rewrite (sum_map_scale (agent_value_coef (config s))
             (fun i => (nth i (m_Vs m) 0 - nth i (m_vs m) 0)
                       * (nth i (m_Vs m) 0 - nth i (m_vs m) 0))).
  rewrite (sum_map_scale (agent_entropy_coef (config s))
             (fun i => - nth i (m_entropies m) 0)).
  unfold Rdiv. ring.
Qed.

Lemma report_loss_decomposition_witness :
  exists s' out,
    learn Toy.batch Toy.agent0 = (s', Ok out)
    /\ out_loss out
       = out_policy_loss out + 0.5 * out_value_loss out + 0.01 * out_entropy_loss out.
Proof.
  destruct (learn_succeeds Toy.X Toy.batch Toy.agent0 eq_refl eq_refl) as (s' & out & H).
  exists s', out. split; [exact H|].
  exact (report_loss_decomposition Toy.X Toy.batch Toy.agent0 s' out H).
Defined.

(** X8: the value loss that [learn] reports is never negative. *)
Theorem report_value_loss_nonneg (X : Externals) (D : list (Trajectory X))
    (s s' : State X) (out : LearnOut) :
  learn D s = (s', Ok out) -> 0 <= out_value_loss out.
Proof.
  intros H.
  destruct (learn_returns_inv X D s s' out H)
    as (s1 & m & _ & _ & (_ & _ & _ & _ & _ & H2) & Eout & _).
  cbv zeta in Eout. subst out. cbn [out_value_loss].
  unfold mean. rewrite length_map, length_seq.
  apply Rmult_le_pos.
  - apply sum_nonneg. intros x Hx. apply in_map_iff in Hx.
    destruct Hx as (i & <- & _). apply Rle_0_sqr.
  - left. apply Rinv_0_lt_compat. apply lt_0_INR. lia.
Qed.

Lemma report_value_loss_nonneg_witness :
  exists s' out, learn Toy.batch Toy.agent0 = (s', Ok out) /\ 0 <= out_value_loss out.
Proof.
  destruct (learn_succeeds Toy.X Toy.batch Toy.agent0 eq_refl eq_refl) as (s' & out & H).
  exists s', out. split; [exact H|].
  exact (report_value_loss_nonneg Toy.X Toy.batch Toy.agent0 s' out H).
Defined.

(** X9: the policy entropy that [learn] reports is the mean of the entropies
    of the action distributions of the forward pass on the batch, and the
    reported entropy loss is its negation. *)
Theorem report_policy_entropy (X : Externals) (D : list (Trajectory X))
    (s s' : State X) (out : LearnOut) :
  learn D s = (s', Ok out) ->
  exists s1 co,
    choose_action (concat (map (fun traj => removelast (numpy_observations traj)) D)) s
    = (s1, Ok co)
    /\ out_policy_entropy out = mean (out_entropy co)
    /\ out_entropy_loss out = - mean (out_entropy co).
Proof.
  intros H.
  destruct (learn_returns_inv X D s s' out H) as (s1 & m & Em & _ & _ & Eout & _).
  destruct (learn_metrics_ok X D s s1 m Em)
    as (_ & _ & co & vAs & Ec & _ & M2 & _).
  cbv zeta in Eout. subst out. cbn [out_policy_entropy out_entropy_loss].
  exists s1, co. split; [exact Ec|]. rewrite M2.
  assert (E : mean (map Ropp (out_entropy co)) = - mean (out_entropy co)).
  { unfold mean. rewrite length_map.
    replace (map Ropp (out_entropy co))
      with (map (fun x => -1 * (fun y => y) x) (out_entropy co))
      by (apply map_ext; intros; ring).
    rewrite (sum_map_scale (-1) (fun y => y)), map_id. unfold Rdiv. ring. }
  rewrite E. split; [ring | reflexivity].
Qed.

Lemma report_policy_entropy_witness :
  exists s' out s1 co,
    learn Toy.batch Toy.agent0 = (s', Ok out)
    /\ choose_action
         (concat (map (fun traj => removelast (numpy_observations traj)) Toy.batch))
         Toy.agent0
       = (s1, Ok co)
    /\ out_policy_entropy out = mean (out_entropy co).
Proof.
  destruct (learn_succeeds Toy.X Toy.batch Toy.agent0 eq_refl eq_refl) as (s' & out & H).
  destruct (report_policy_entropy Toy.X Toy.batch Toy.agent0 s' out H)
    as (s1 & co & Ec & E & _).
  exists s', out, s1, co. auto.
Defined.

(** ** Standardized advantages, continued *)

Lemma sum_map_affine (c k : R) (l : list R) :
  Tensor.sum (map (fun a => (a - c) * k) l)
  = (Tensor.sum l - INR (length l) * c) * k.
Proof.
  induction l as [|x l IH]; unfold Tensor.sum in *.
  - simpl. ring.
  - cbn [map fold_right length]. rewrite IH, S_INR. ring.
Qed.

Lemma INR_length_nonzero {A : Type} (l : list A) : l <> [] -> INR (length l) <> 0.
Proof.
  intros H. apply not_0_INR. destruct l; [contradiction | discriminate].
Qed.

Lemma mean_standardize (As : list R) : As <> [] -> mean (standardize As) = 0.
Proof.
  intros Hne. unfold standardize, mean at 1. rewrite length_map.
  unfold Rdiv at 2. rewrite (sum_map_affine (mean As) (/ (std As + 1e-8)) As).
  unfold mean. pose proof (INR_length_nonzero As Hne).
  unfold Rdiv. field_simplify_eq; [ring|].
  split; [assumption|].
  pose proof (std_nonneg As). lra.
Qed.

(** X10: the standardized advantages have mean zero. *)
Theorem standardize_mean_zero (As : list R) :
  (2 <= length As)%nat -> mean (standardize As) = 0.
Proof.
  intros H. apply mean_standardize. intros ->. simpl in H. lia.
Qed.

Lemma standardize_mean_zero_witness : mean (standardize [1; 2; 4]) = 0.
Proof.
  apply (standardize_mean_zero [1; 2; 4]). simpl. lia.
Defined.


Lemma mean_shift (c : R) (As : list R) :
  As <> [] -> mean (map (fun a => a + c) As) = mean As + c.
Proof.
  intros Hne. unfold mean. rewrite length_map.
  replace (map (fun a => a + c) As) with (map (fun a => (a - - c) * 1) As)
    by (apply map_ext; intros; ring).
  rewrite sum_map_affine. pose proof (INR_length_nonzero As Hne). field. assumption.
Qed.

(** X12: standardization forgets a constant baseline: adding the same number
    to every advantage leaves the standardized advantages as they were. *)
Theorem standardize_shift_invariant (c : R) (As : list R) :
  (2 <= length As)%nat ->
  standardize (map (fun a => a + c) As) = standardize As.
Proof.
  intros H.
  assert (Hne : As <> []) by (intros ->; simpl in H; lia).
  assert (Es : std (map (fun a => a + c) As) = std As).
  { unfold std. rewrite (mean_shift c As Hne), map_map, length_map.
    f_equal. f_equal. f_equal. apply map_ext. intros a. ring. }
  unfold standardize. rewrite Es, (mean_shift c As Hne), map_map.
  apply map_ext. intros a. unfold Rdiv. ring.
Qed.

Lemma standardize_shift_invariant_witness :
  standardize (map (fun a => a + 10) [1; 2; 4]) = standardize [1; 2; 4].
Proof.
  apply (standardize_shift_invariant 10 [1; 2; 4]). simpl. lia.
Defined.

(** ** Checkpoints *)

Lemma checkpoint_state (X : Externals) (logdir : string) (n : Z) (s : State X) :
  let saved := write_file (agent_file logdir n)
                          (StateDict X (params s) (total_timestep s)) s in
  fst (checkpoint logdir n s) = saved
  \/ exists m v,
       fst (checkpoint logdir n s)
       = write_file (moments_file logdir n) (Pickle X m v) saved.
Proof.
  cbv zeta. unfold checkpoint, bind, get, modify, ret, raise. cbn [env write_file].
  destruct (get_wrapper (env s) "VecStandardizeObservation") as [w|] eqn:G;
    [|left; reflexivity].
  destruct (get_wrapper_standardizer _ _ G) as [_ (m & v & ->)].
  right. exists m, v. reflexivity.
Qed.

Lemma moments_file_not_agent_file (logdir : string) (n n' : Z) :
  moments_file logdir n <> agent_file logdir n'.
Proof. intros E. symmetry in E. exact (agent_file_not_moments_file _ _ _ E). Qed.

(** A later checkpoint at another iteration leaves the file at [path]
    alone when [path] is a file of iteration [n]. *)
Lemma checkpoint_keeps_file (X : Externals) (logdir : string) (n n' : Z) (s : State X)
    (path : string) :
  n <> n' ->
  path = agent_file logdir n \/ path = moments_file logdir n ->
  read_file path (fst (checkpoint logdir n' s)) = read_file path s.
Proof.
  intros Hn Hp.
  assert (A : agent_file logdir n' <> path).
  { destruct Hp as [-> | ->].
    - intros E. apply agent_file_inj in E. congruence.
    - apply agent_file_not_moments_file. }
  assert (B : moments_file logdir n' <> path).
  { destruct Hp as [-> | ->].
    - apply moments_file_not_agent_file.
    - intros E. apply moments_file_inj in E. congruence. }
  destruct (checkpoint_state X logdir n' s) as [-> | (m & v & ->)].
  - apply read_file_write_other. exact A.
  - rewrite read_file_write_other by exact B. apply read_file_write_other. exact A.
Qed.

(** X13: checkpoints of different iterations do not overwrite each other:
    after a checkpoint at [n] and then, following any calls of [learn] and
    [choose_action], a checkpoint at another iteration [n'] in the same
    directory, the files of iteration [n] still hold what the first
    checkpoint wrote. *)
Theorem checkpoints_coexist (X : Externals) (logdir : string) (n n' : Z) (s : State X)
    (ops : list (Op X)) :
  n <> n' ->
  (forall o, In o ops -> forall l k, o <> Checkpoint X l k) ->
  let s1 := fst (checkpoint logdir n s) in
  let s2 := fst (checkpoint logdir n' (run ops s1)) in
  read_file (agent_file logdir n) s2
  = Some (StateDict X (params s) (total_timestep s))
  /\ read_file (moments_file logdir n) s2 = read_file (moments_file logdir n) s1.
Proof.
  intros Hn Hops. cbv zeta.
  assert (F : forall ops' (st : State X),
             (forall o, In o ops' -> forall l k, o <> Checkpoint X l k) ->
             files (run ops' st) = files st).
  { induction ops' as [|o ops' IH]; intros st Ho; [reflexivity|].
    rewrite run_cons, IH by (intros o' Hin; apply Ho; right; exact Hin).
    destruct o as [obs|D|l k]; simpl.
    - apply (choose_action_state X obs st).
    - apply (learn_frame X D st).
    - destruct (Ho (Checkpoint X l k) (or_introl eq_refl) l k eq_refl). }
  assert (R : forall path, read_file path (run ops (fst (checkpoint logdir n s)))
                           = read_file path (fst (checkpoint logdir n s))).
  { intros path. unfold read_file. rewrite (F ops _ Hops). reflexivity. }
  rewrite !(checkpoint_keeps_file X logdir n n') by auto.
  rewrite !R. split; [|reflexivity].
  destruct (checkpoint_state X logdir n s) as [-> | (m & v & ->)].
  - apply read_file_write_same.
  - rewrite read_file_write_other by apply moments_file_not_agent_file.
    apply read_file_write_same.
Qed.

Lemma checkpoints_coexist_witness :
  read_file (agent_file "logs" 1)
            (fst (checkpoint "logs" 2
                    (run [Learn Toy.batch] (fst (checkpoint "logs" 1 Toy.agent0)))))
  = Some (StateDict Toy.X 0%nat 0%Z).
Proof.
  apply (checkpoints_coexist Toy.X "logs" 1 2 Toy.agent0 [Learn Toy.batch]).
  - discriminate.
  - intros o [<-|[]] l k. discriminate.
Defined.

(** X14: a checkpoint taken after a call of [learn] that returned holds the
    parameters the optimizer produced in that call and the counter with the
    timesteps of the batch added. *)
Theorem learn_then_checkpoint (X : Externals) (D : list (Trajectory X))
    (s s1 : State X) (out : LearnOut) (logdir : string) (n : Z) :
  learn D s = (s1, Ok out) ->
  (0 <= total_timestep s)%Z ->
  (total_timestep s + Z.of_nat (list_sum (map (@len X) D)) <= int64_max)%Z ->
  read_file (agent_file logdir n) (fst (checkpoint logdir n s1))
  = Some (StateDict X
            (fst (backward_clip_step X (params s) (out_loss out)
                                     (agent_max_grad_norm (config s))))
            (total_timestep s + Z.of_nat (list_sum (map (@len X) D)))).
Proof.
  intros H H0 Hmax.
  destruct (learn_returns_inv X D s s1 out H) as (s0 & m & _ & _ & _ & Eout & Es & _).
  cbv zeta in Eout, Es.
  assert (Ep : params s1 = fst (backward_clip_step X (params s) (out_loss out)
                                  (agent_max_grad_norm (config s)))).
  { subst out s1. destruct (agent_use_lr_scheduler (config s)); reflexivity. }
  assert (Et : total_timestep s1
               = (total_timestep s + Z.of_nat (list_sum (map (@len X) D)))%Z).
  { subst s1. cbn [total_timestep set_total_timestep].
    apply wrap64_in_range. unfold batch_timesteps, int64_min. simpl. lia. }
  rewrite <- Ep, <- Et.
  destruct (checkpoint_state X logdir n s1) as [-> | (mm & v & ->)].
  - apply read_file_write_same.
  - rewrite read_file_write_other by apply moments_file_not_agent_file.
    apply read_file_write_same.
Qed.

Lemma learn_then_checkpoint_witness :
  exists s1 out,
    learn Toy.batch Toy.agent0 = (s1, Ok out)
    /\ read_file (agent_file "logs" 7) (fst (checkpoint "logs" 7 s1))
       = Some (StateDict Toy.X 1%nat 4%Z).
Proof.
  destruct (learn_succeeds Toy.X Toy.batch Toy.agent0 eq_refl eq_refl) as (s1 & out & H).
  exists s1, out. split; [exact H|].
  apply (learn_then_checkpoint Toy.X Toy.batch Toy.agent0 s1 out "logs" 7 H).
  - simpl. lia.
  - unfold int64_max, Toy.batch, Toy.episode, len. simpl. lia.
Defined.

(** ** [choose_action] *)

Lemma sample_rows_fst_length (X : Externals) (ds : list (Dist X)) (g : Rng X) :
  forall acts g', sample_rows X ds g = (acts, g') -> length acts = length ds.
Proof.
  intros acts g' E. pose proof (sample_rows_length X ds g) as L.
  rewrite E in L. exact L.
Qed.

(** X15: [choose_action] returns exactly when the agent has its head; it
    then yields one distribution, entropy, action, log-probability and value
    per observation row, and changes nothing of the agent but the random
    generator.  Without the head it raises and changes nothing at all. *)
Theorem choose_action_outcome (X : Externals) (obs : list (Obs X)) (s : State X) :
  (action_head s = None -> choose_action obs s = (s, Raise AttributeError))
  /\ (action_head s <> None ->
      exists s' co,
        choose_action obs s = (s', Ok co)
        /\ same_but_rng s s'
        /\ length (out_action_dist co) = length obs
        /\ length (out_entropy co) = length obs
        /\ length (out_action co) = length obs
        /\ length (out_action_logprob co) = length obs
        /\ length (out_V co) = length obs).
Proof.
  unfold choose_action, bind, get, modify, ret, raise.
  destruct (action_head s) as [h|] eqn:Hh.
  2:{ split; [intros _; reflexivity | intros H; destruct (H eq_refl)]. }
  split; [discriminate | intros _].
  destruct (sample_rows X
              (map (head_forward X (params s) h) (map (feature_network X (params s)) obs))
              (rng s)) as [action g] eqn:Es.
  pose proof (sample_rows_fst_length X _ _ _ _ Es) as L. rewrite !length_map in L.
  do 2 eexists. split; [reflexivity|]. split; [apply same_but_rng_set|].
  cbn [out_action_dist out_entropy out_action out_action_logprob out_V].
  rewrite !length_map, length_combine, !length_map. repeat split; lia.
Qed.

Lemma choose_action_outcome_witness :
  exists s' co,
    @choose_action Toy.X [1; 2; 3]%nat Toy.agent0 = (s', Ok co)
    /\ same_but_rng Toy.agent0 s'
    /\ length (out_action co) = 3%nat.
Proof.
  destruct (proj2 (choose_action_outcome Toy.X [1; 2; 3]%nat Toy.agent0))
    as (s' & co & E & St & _ & _ & La & _).
  - discriminate.
  - exists s', co. auto.
Defined.

(** ** Splitting and concatenating *)

Lemma split_with_sizes_concat (parts : list (list R)) :
  split_with_sizes (concat parts) (map (@length R) parts) = parts.
Proof.
  induction parts as [|p parts IH]; [reflexivity|].
  cbn [concat map split_with_sizes].
  rewrite firstn_app, Nat.sub_diag, firstn_all, firstn_O, app_nil_r.
  rewrite skipn_app, Nat.sub_diag, skipn_all, skipn_O. simpl. rewrite IH. reflexivity.
Qed.

(** X16: splitting a flat tensor by sizes and concatenating the pieces, as
    [learn] does with the trajectory lengths, is a round trip in both
    directions: the pieces of a successful split have the sizes asked for
    and concatenate to the tensor, and the concatenation of any pieces
    splits back into them. *)
Theorem split_concat_round_trip :
  (forall (l : list R) (sizes : list nat) (parts : list (list R)),
      split (Vec l) sizes = Ok parts ->
      concat parts = l /\ map (@length R) parts = sizes)
  /\ (forall parts : list (list R),
        split (Vec (concat parts)) (map (@length R) parts) = Ok parts)
  /\ (forall (l : list R) (sizes : list nat),
        list_sum sizes <> length l -> split (Vec l) sizes = Raise RuntimeError).
Proof.
  split; [|split].
  - intros l sizes parts. unfold split.
    destruct (Nat.eqb_spec (list_sum sizes) (length l)) as [E|E]; [|discriminate].
    intros H; inversion H; subst. apply split_with_sizes_spec. exact E.
  - intros parts. unfold split.
    rewrite length_concat_sum, Nat.eqb_refl, split_with_sizes_concat. reflexivity.
  - intros l sizes H. unfold split.
    destruct (Nat.eqb_spec (list_sum sizes) (length l)) as [E|E];
      [contradiction | reflexivity].
Qed.

Lemma split_concat_round_trip_witness :
  split (Vec (concat [[1; 2]; [3]; [4; 5]])) [2; 1; 2]%nat = Ok [[1; 2]; [3]; [4; 5]]
  /\ split (Vec [1; 2; 3]) [2; 2]%nat = Raise RuntimeError.
Proof.
  destruct split_concat_round_trip as (_ & B & C). split.
  - exact (B [[1; 2]; [3]; [4; 5]]).
  - apply (C [1; 2; 3] [2; 2]%nat). simpl. lia.
Defined.

(** ** Sequences of operations *)

(** X17: no sequence of [choose_action], [learn] and [checkpoint] calls,
    returning or raising, changes the configuration, the environment, the
    policy head, the discount, the clip thresholds or the presence of the
    scheduler; the calls made to the optimizer and the files written are
    only ever added to. *)
Theorem run_keeps_hyperparameters (X : Externals) (ops : list (Op X)) (s : State X) :
  let s' := run ops s in
  config s' = config s /\ env s' = env s /\ action_head s' = action_head s
  /\ lr_scheduler s' = lr_scheduler s /\ gamma s' = gamma s
  /\ clip_rho s' = clip_rho s /\ clip_pg_rho s' = clip_pg_rho s
  /\ (exists cs, calls s' = calls s ++ cs)
  /\ (exists fs, files s' = fs ++ files s).
Proof.
  cbv zeta. revert s. induction ops as [|o ops IH]; intros s.
  - simpl. repeat split; try reflexivity.
    + exists []. rewrite app_nil_r. reflexivity.
    + exists []. reflexivity.
  - rewrite run_cons.
    destruct (IH (run_op o s)) as (A1 & A2 & A3 & A4 & A5 & A6 & A7 & (cs & A8) & (fs & A9)).
    destruct (run_op_frame X o s)
      as (B1 & B2 & B3 & B4 & B5 & B6 & B7 & (cs0 & B8) & (fs0 & B9)).
    repeat split; try congruence.
    + exists (cs0 ++ cs). rewrite A8, B8, app_assoc. reflexivity.
    + exists (fs ++ fs0). rewrite A9, B9, app_assoc. reflexivity.
Qed.

(** ** The exceptions of [learn] and of the constructor *)

Lemma mapM_torch_cat_raises {A : Type} (f : A -> list R) (l : list A) :
  Exists (fun x => f x = []) l ->
  mapM (fun x => torch_cat (f x)) l = Raise RuntimeError.
Proof.
  induction l as [|x l IH]; intros H; [inversion H|].
  simpl. destruct (f x) as [|y ys] eqn:E; [reflexivity|].
  simpl. rewrite IH; [reflexivity|].
  inversion H as [? ? H0|? ? H0]; subst; [congruence | exact H0].
Qed.

Lemma np_concatenate_nonempty {A B : Type} (g : A -> list B) (l : list A) :
  l <> [] -> np_concatenate (map g l) = Ok (concat (map g l)).
Proof. destruct l; [contradiction | reflexivity]. Qed.

Lemma length_rows (X : Externals) (D : list (Trajectory X)) :
  length (concat (map (fun traj => removelast (numpy_observations traj)) D))
  = list_sum (map (fun traj => length (observations traj)) D).
Proof.
  rewrite length_concat_sum, map_map. f_equal. apply map_ext. intros traj.
  unfold numpy_observations. rewrite removelast_last. reflexivity.
Qed.

(** X18: the exceptions of [learn], by cause and in the order the causes are
    met.  An empty batch is a [ValueError] and a trajectory without a
    behaviour log-probability a [RuntimeError], both with the agent
    untouched; an agent without its head is an [AttributeError], untouched
    as well; a batch of a single observation row, or one whose rows are not
    as many as its timesteps, is a [RuntimeError] raised when the forward
    pass is split by trajectory, with nothing but the random generator
    moved. *)
Theorem learn_raises_on (X : Externals) (D : list (Trajectory X)) (s : State X) :
  let rows := list_sum (map (fun traj => length (observations traj)) D) in
  let recorded := Forall (fun traj => info_action_logprob traj <> []) D in
  (Exists (fun traj => info_action_logprob traj = []) D ->
   learn D s = (s, Raise RuntimeError))
  /\ (D = [] -> learn D s = (s, Raise ValueError))
  /\ (D <> [] -> recorded -> action_head s = None ->
      learn D s = (s, Raise AttributeError))
  /\ (D <> [] -> recorded -> action_head s <> None ->
      rows = 1%nat \/ rows <> list_sum (map (@len X) D) ->
      exists s', learn D s = (s', Raise RuntimeError) /\ same_but_rng s s').
Proof.
  cbv zeta. split; [|split; [|split]].
  - intros H. unfold learn, bind, learn_metrics. rewrite bind_lift.
    rewrite (mapM_torch_cat_raises _ D H). reflexivity.
  - intros ->. reflexivity.
  - intros HD Hrec Hh. unfold learn, bind at 1, learn_metrics. rewrite bind_lift.
    rewrite mapM_torch_cat_ok.
    2:{ eapply Forall_impl; [|exact Hrec]. intros traj Ht. cbv beta in Ht.
        destruct (info_action_logprob traj);
          [exfalso; apply Ht; reflexivity | simpl; lia]. }
    rewrite bind_lift, (np_concatenate_nonempty _ D HD).
    unfold bind at 1.
    destruct (choose_action_cases X
                (concat (map (fun traj => removelast (numpy_observations traj)) D)) s)
      as [[_ Ec]|(h & _ & _ & Hh' & _)]; [|congruence].
    rewrite Ec. reflexivity.
  - intros HD Hrec Hh Hrows. unfold learn, bind at 1, learn_metrics. rewrite bind_lift.
    rewrite mapM_torch_cat_ok.
    2:{ eapply Forall_impl; [|exact Hrec]. intros traj Ht. cbv beta in Ht.
        destruct (info_action_logprob traj);
          [exfalso; apply Ht; reflexivity | simpl; lia]. }
    rewrite bind_lift, (np_concatenate_nonempty _ D HD).
    unfold bind at 1.
    destruct (choose_action_cases X
                (concat (map (fun traj => removelast (numpy_observations traj)) D)) s)
      as [[Hn _]|(h & co & g & _ & Ec & L1 & _)]; [contradiction|].
    rewrite Ec, bind_lift, (np_concatenate_nonempty _ D HD), bind_get, bind_lift.
    rewrite length_rows in L1.
    assert (Es : split (squeeze (out_action_logprob co)) (map (@len X) D)
                 = Raise RuntimeError).
    { destruct Hrows as [H1|Hne].
      - rewrite H1 in L1.
        destruct (out_action_logprob co) as [|x [|y l]]; simpl in L1; try discriminate.
        reflexivity.
      - unfold squeeze, split.
        destruct (out_action_logprob co) as [|x [|y l]] eqn:El; [|reflexivity|];
          match goal with
          | |- context [Nat.eqb ?a ?b] =>
              destruct (Nat.eqb_spec a b) as [E|E]; [|reflexivity]
          end;
          exfalso; apply Hne; rewrite <- L1; symmetry; exact E. }
    rewrite Es. exists (set_rng g s). split; [reflexivity | apply same_but_rng_set].
Qed.

Lemma learn_raises_on_witness :
  exists s',
    learn [@mkTrajectory Toy.X [1%nat] 2%nat [true] [1] [0] [true]] Toy.agent0
    = (s', Raise RuntimeError)
    /\ same_but_rng Toy.agent0 s'.
Proof.
  destruct (learn_raises_on Toy.X [@mkTrajectory Toy.X [1%nat] 2%nat [true] [1] [0] [true]]
              Toy.agent0) as (_ & _ & _ & H).
  apply H.
  - discriminate.
  - repeat constructor. simpl. discriminate.
  - discriminate.
  - left. reflexivity.
Defined.

(** X19: the constructor raises exactly when the list of hidden sizes is
    empty, with an [IndexError].  Otherwise it returns an agent whose counter
    is zero, that has made no call, whose discount and clip thresholds are
    those of the configuration, that has a scheduler exactly when the
    configuration asks for one, and whose head is built on the last hidden
    size: categorical over the [n] actions of a [Discrete] space, diagonal
    Gaussian over the flat dimension of a [Box]. *)
Theorem init_outcome (X : Externals) (cfg : Config) (e : Env)
    (params0 : Params X) (rng0 : Rng X) (files0 : list (string * File X)) :
  (nn_sizes cfg = [] -> init cfg e params0 rng0 files0 = Raise IndexError)
  /\ (nn_sizes cfg <> [] ->
      exists s,
        init cfg e params0 rng0 files0 = Ok s
        /\ total_timestep s = 0%Z /\ calls s = [] /\ files s = files0
        /\ config s = cfg /\ env s = e /\ params s = params0
        /\ gamma s = agent_gamma cfg /\ clip_rho s = agent_clip_rho cfg
        /\ clip_pg_rho s = agent_clip_pg_rho cfg
        /\ lr_scheduler s = agent_use_lr_scheduler cfg
        /\ (forall n, action_space e = Discrete n ->
              action_head s = Some (CategoricalHead (last (nn_sizes cfg) 0%nat) n))
        /\ (forall shape, action_space e = Box shape ->
              action_head s
              = Some (DiagGaussianHead (last (nn_sizes cfg) 0%nat)
                                       (fold_right Nat.mul 1%nat shape)
                                       (agent_std0 cfg)))
        /\ (ready s = true
            <-> (exists n, action_space e = Discrete n)
                \/ (exists shape, action_space e = Box shape))).
Proof.
  unfold init. split.
  - intros ->. reflexivity.
  - intros Hne.
    destruct (rev (nn_sizes cfg)) as [|feature_dim rest] eqn:E.
    { apply (f_equal (@rev nat)) in E. rewrite rev_involutive in E. contradiction. }
    assert (Hl : last (nn_sizes cfg) 0%nat = feature_dim).
    { apply (f_equal (@rev nat)) in E. rewrite rev_involutive in E. rewrite E.
      simpl rev. apply last_last. }
    eexists. split; [reflexivity|].
    cbn [total_timestep calls files config env params gamma clip_rho clip_pg_rho
         lr_scheduler action_head].
    repeat (split; [reflexivity|]).
    split; [intros n ->; rewrite Hl; reflexivity|].
    split; [intros shape ->; rewrite Hl; reflexivity|].
    unfold ready. cbn [action_head config lr_scheduler].
    destruct (action_space e) as [n|shape|nvec|n];
      destruct (agent_use_lr_scheduler cfg); simpl; split;
      try (intros _; eauto; fail); try discriminate;
      intros [[k H]|[k H]]; discriminate.
Qed.

Lemma init_outcome_witness :
  exists s,
    @init Toy.X Toy.cfg Toy.cartpole 0%nat 0%nat [] = Ok s
    /\ total_timestep s = 0%Z
    /\ action_head s = Some (CategoricalHead 64 2).
Proof.
  destruct (proj2 (init_outcome Toy.X Toy.cfg Toy.cartpole 0%nat 0%nat []))
    as (s & E & Ht & _ & _ & _ & _ & _ & _ & _ & _ & _ & Hd & _).
  - discriminate.
  - exists s. split; [exact E|]. split; [exact Ht|]. exact (Hd 2%nat eq_refl).
Defined.

End AgentExtras.
